(** * Process lifecycle supervisor

    A shallow embedding of
    [01-process-management/examples/advanced/lifecycle_manager.go]
    and the properties of its lifecycle engine.

    The Go program keeps a registry [map[int]*ManagedProcess]; every record is
    reached through the pointer stored under its id, and no entry is ever
    replaced or deleted except by [CreateProcess] writing a new id.  A pointer
    to a record is therefore modelled by the key of the record, and a write
    through the pointer by an in-place update ([alter]) of the registry.

    The operating system is not part of the program.  Each answer it gives
    (did [cmd.Start] succeed and with which pid, did [Signal] succeed, did the
    child exit before the grace timer, how much time went by) is an explicit
    input of the operation that asks for it.  What the program does to the
    outside is recorded as a trace of events.  Execution is sequential: one
    operation runs to its end before the next begins; a goroutine started by
    [go f(...)] is recorded as an event and runs as a later operation. *)

From stdpp Require Import gmap strings list fin_maps.

Open Scope Z_scope.

(** ** Go's [int] (64 bit) *)

Definition max_int : Z := 2 ^ 63 - 1.
Definition min_int : Z := - 2 ^ 63.

(** Result of an [int] operation whose mathematical value is [x]. *)
Definition wrap_int (x : Z) : Z := (x + 2 ^ 63) mod 2 ^ 64 - 2 ^ 63.

(** [i++] *)
Definition int_incr (i : Z) : Z := wrap_int (i + 1).

(** ** Data model *)

Inductive ProcessState : Type :=
| StateCreated
| StateStarting
| StateRunning
| StateStopping
| StateStopped
| StateFailed
| StateRestarting.

#[global] Instance ProcessState_eq_dec : EqDecision ProcessState.
Proof. solve_decision. Defined.

(** The two implementations of the [HealthChecker] interface. *)
Inductive HealthChecker : Type :=
| DefaultHealthChecker
| HTTPHealthChecker (URL : string) (Timeout : Z) (Expected : Z).

(** The part of [exec.Cmd] the manager looks at.  [Process] is [nil] until
    [cmd.Start] has succeeded; the kernel gives a child a positive pid. *)
Record Cmd : Type := mkCmd {
  Args : list string;
  Dir : string;
  Process : option positive
}.

Record ManagedProcess : Type := mkProcess {
  ID : Z;
  PID : Z;
  Name : string;
  Command : list string;
  State : ProcessState;
  StartTime : Z;
  EndTime : option Z;
  RestartCount : Z;
  MaxRestarts : Z;
  HealthCheck : HealthChecker;
  Dependencies : list Z;
  Environment : gmap string string;
  WorkDir : string;
  LogFile : string;
  cmd : option Cmd
}.

(** Field assignments [process.F = v]. *)
Definition set_PID (v : Z) (p : ManagedProcess) : ManagedProcess :=
  mkProcess (ID p) v (Name p) (Command p) (State p) (StartTime p) (EndTime p)
    (RestartCount p) (MaxRestarts p) (HealthCheck p) (Dependencies p)
    (Environment p) (WorkDir p) (LogFile p) (cmd p).

Definition set_State (v : ProcessState) (p : ManagedProcess) : ManagedProcess :=
  mkProcess (ID p) (PID p) (Name p) (Command p) v (StartTime p) (EndTime p)
    (RestartCount p) (MaxRestarts p) (HealthCheck p) (Dependencies p)
    (Environment p) (WorkDir p) (LogFile p) (cmd p).

Definition set_StartTime (v : Z) (p : ManagedProcess) : ManagedProcess :=
  mkProcess (ID p) (PID p) (Name p) (Command p) (State p) v (EndTime p)
    (RestartCount p) (MaxRestarts p) (HealthCheck p) (Dependencies p)
    (Environment p) (WorkDir p) (LogFile p) (cmd p).

Definition set_EndTime (v : option Z) (p : ManagedProcess) : ManagedProcess :=
  mkProcess (ID p) (PID p) (Name p) (Command p) (State p) (StartTime p) v
    (RestartCount p) (MaxRestarts p) (HealthCheck p) (Dependencies p)
    (Environment p) (WorkDir p) (LogFile p) (cmd p).

Definition set_RestartCount (v : Z) (p : ManagedProcess) : ManagedProcess :=
  mkProcess (ID p) (PID p) (Name p) (Command p) (State p) (StartTime p)
    (EndTime p) v (MaxRestarts p) (HealthCheck p) (Dependencies p)
    (Environment p) (WorkDir p) (LogFile p) (cmd p).

Definition set_Dependencies (v : list Z) (p : ManagedProcess) : ManagedProcess :=
  mkProcess (ID p) (PID p) (Name p) (Command p) (State p) (StartTime p)
    (EndTime p) (RestartCount p) (MaxRestarts p) (HealthCheck p) v
    (Environment p) (WorkDir p) (LogFile p) (cmd p).

Definition set_Environment (v : gmap string string) (p : ManagedProcess)
  : ManagedProcess :=
  mkProcess (ID p) (PID p) (Name p) (Command p) (State p) (StartTime p)
    (EndTime p) (RestartCount p) (MaxRestarts p) (HealthCheck p)
    (Dependencies p) v (WorkDir p) (LogFile p) (cmd p).

Definition set_cmd (v : option Cmd) (p : ManagedProcess) : ManagedProcess :=
  mkProcess (ID p) (PID p) (Name p) (Command p) (State p) (StartTime p)
    (EndTime p) (RestartCount p) (MaxRestarts p) (HealthCheck p)
    (Dependencies p) (Environment p) (WorkDir p) (LogFile p) v.

(** The manager.  [shutdownClosed] is the state of [shutdownChannel], on which
    nothing is ever sent: the only thing that matters is whether it has been
    closed.  The mutex has no content in a sequential execution. *)
Record ProcessLifecycleManager : Type := mkManager {
  processes : gmap Z ManagedProcess;
  nextProcessID : Z;
  shutdownClosed : bool
}.

(** The manager together with the reading of the monotonic clock behind
    [time.Now] (milliseconds). *)
Record Sys : Type := mkSys {
  plm : ProcessLifecycleManager;
  clock : Z
}.

(** ** Effects *)

Inductive Event : Type :=
| EvState (id : Z) (st : ProcessState)
    (* process.State = st *)
| EvLaunch (id : Z) (argv : list string) (dir : string) (res : option positive)
    (* cmd.Start() and its result *)
| EvSigterm (pid : positive) (ok : bool)
    (* Process.Signal(syscall.SIGTERM) and whether it returned nil *)
| EvKill (pid : positive)
    (* Process.Kill(), its result dropped *)
| EvExited (pid : positive)
    (* <-done: cmd.Wait() has returned *)
| EvGraceTimeout (pid : positive)
    (* <-time.After(10 * time.Second) *)
| EvSleep (ms : Z)
    (* time.Sleep *)
| EvSpawnMonitor (id : Z)
    (* go plm.monitorProcess(process) *)
| EvSpawnRestart (id : Z)
    (* go plm.RestartProcess(process.ID) *)
| EvCloseShutdown.
    (* close(plm.shutdownChannel) *)

Inductive GoPanic : Type :=
| IndexOutOfRange
| CloseOfClosedChannel
| NilDereference.

(** The values of Go's [error] that the manager builds with [fmt.Errorf]. *)
Inductive Error : Type :=
| ErrNotFound (id : Z)
| ErrDependencies (id : Z)
| ErrStartFailed (id : Z)
| ErrNotRunning (id : Z)
| ErrSigterm (id : Z)
| ErrMaxRestarts (id : Z) (max : Z).

(** Outcome of running a piece of the program: it returns, or the Go runtime
    panics (and, nothing recovering, the program dies). *)
Inductive Res (A : Type) : Type :=
| Ret (a : A) (s : Sys) (t : list Event)
| Panic (why : GoPanic) (s : Sys) (t : list Event).

Arguments Ret {A} a s t.
Arguments Panic {A} why s t.

Definition M (A : Type) : Type := Sys -> Res A.

Definition ret {A : Type} (a : A) : M A := fun s => Ret a s [].

Definition bind {A B : Type} (m : M A) (k : A -> M B) : M B := fun s =>
  match m s with
  | Ret a s1 t1 =>
      match k a s1 with
      | Ret b s2 t2 => Ret b s2 (t1 ++ t2)
      | Panic w s2 t2 => Panic w s2 (t1 ++ t2)
      end
  | Panic w s1 t1 => Panic w s1 t1
  end.

Notation "'let*' x ':=' m 'in' k" := (bind m (fun x => k))
  (at level 10, x name, m at level 100, k at level 200).
Notation "'run*' m 'in' k" := (bind m (fun _ => k))
  (at level 10, m at level 100, k at level 200).

Definition panic {A : Type} (why : GoPanic) : M A := fun s => Panic why s [].

Definition emit (e : Event) : M unit := fun s => Ret tt s [e].

Definition get_plm : M ProcessLifecycleManager := fun s => Ret (plm s) s [].

(** [plm.processes[id]] with the comma-ok form. *)
Definition lookup_process (id : Z) : M (option ManagedProcess) := fun s =>
  Ret (processes (plm s) !! id) s [].

(** Reading a record through the pointer held for it. *)
Definition deref (ptr : Z) : M ManagedProcess := fun s =>
  match processes (plm s) !! ptr with
  | Some p => Ret p s []
  | None => Panic NilDereference s []
  end.

Definition with_processes (f : gmap Z ManagedProcess -> gmap Z ManagedProcess)
  (s : Sys) : Sys :=
  mkSys (mkManager (f (processes (plm s))) (nextProcessID (plm s))
           (shutdownClosed (plm s)))
        (clock s).

(** Writing a record through the pointer held for it. *)
Definition assign (ptr : Z) (f : ManagedProcess -> ManagedProcess) : M unit :=
  fun s => Ret tt (with_processes (alter f ptr) s) [].

(** [process.State = st] *)
Definition assign_State (ptr : Z) (st : ProcessState) : M unit :=
  run* assign ptr (set_State st) in emit (EvState ptr st).

(** [time.Now()], read [dt] milliseconds after the clock was last looked at. *)
Definition time_Now (dt : N) : M Z := fun s =>
  let t := clock s + Z.of_N dt in
  Ret t (mkSys (plm s) t) [].

(** [time.Sleep], and the firing of a timer: at least [ms] go by. *)
Definition pass_time (ms : Z) : M unit := fun s =>
  Ret tt (mkSys (plm s) (clock s + ms)) [].

(** ** The operating system's answers *)

(** To [StartProcess]: the result of [cmd.Start()] and the time until the
    start time is taken. *)
Record StartEnv : Type := mkStartEnv {
  launch : option positive;
  start_elapsed : N
}.

(** To [StopProcess]: whether SIGTERM could be delivered, whether the child
    exits before the ten seconds are over, and the time until the end time is
    taken. *)
Record StopEnv : Type := mkStopEnv {
  sigterm_ok : bool;
  exits_in_grace : bool;
  stop_elapsed : N
}.

(** ** The manager's operations *)

Definition NewProcessLifecycleManager : ProcessLifecycleManager :=
  mkManager ∅ 1 false.

Definition CreateProcess (name : string) (command : list string) (dt : N)
  : M ManagedProcess := fun s =>
  let t := clock s + Z.of_N dt in
  let process :=
    {| ID := nextProcessID (plm s);
       PID := 0;
       Name := name;
       Command := command;
       State := StateCreated;
       StartTime := t;
       EndTime := None;
       RestartCount := 0;
       MaxRestarts := 3;
       HealthCheck := DefaultHealthChecker;
       Dependencies := [];
       Environment := ∅;
       WorkDir := "/tmp";
       LogFile := "";
       cmd := None |} in
  Ret process
    (mkSys (mkManager (<[ID process := process]> (processes (plm s)))
                      (int_incr (nextProcessID (plm s)))
                      (shutdownClosed (plm s)))
           t)
    [].

(** The loop of [checkDependencies] over [process.Dependencies]. *)
Fixpoint checkDependencies_loop (procs : gmap Z ManagedProcess) (deps : list Z)
  : bool :=
  match deps with
  | [] => true
  | depID :: rest =>
      match procs !! depID with
      | Some dep =>
          if decide (State dep = StateRunning)
          then checkDependencies_loop procs rest
          else false
      | None => false
      end
  end.

Definition checkDependencies (process : ManagedProcess) : M bool := fun s =>
  Ret (checkDependencies_loop (processes (plm s)) (Dependencies process)) s [].

Definition StartProcess (processID : Z) (env : StartEnv) : M (option Error) :=
  let* found := lookup_process processID in
  match found with
  | None => ret (Some (ErrNotFound processID))
  | Some process =>
      let* ok := checkDependencies process in
      if negb ok then ret (Some (ErrDependencies processID))
      else
        run* assign_State processID StateStarting in
        let* p := deref processID in
        match Command p with
        | [] => panic IndexOutOfRange
        | name :: _ =>
            (* exec.Command(process.Command[0], process.Command[1:]...);
               the environment overlay and the log file only feed the
               launcher *)
            let c := mkCmd (Command p) (WorkDir p) None in
            run* emit (EvLaunch processID (Args c) (Dir c) (launch env)) in
            match launch env with
            | None =>
                run* assign_State processID StateFailed in
                ret (Some (ErrStartFailed processID))
            | Some pid =>
                let started := mkCmd (Args c) (Dir c) (Some pid) in
                run* assign processID (set_cmd (Some started)) in
                run* assign processID (set_PID (Z.pos pid)) in
                run* assign_State processID StateRunning in
                let* now := time_Now (start_elapsed env) in
                run* assign processID (set_StartTime now) in
                run* emit (EvSpawnMonitor processID) in
                ret None
            end
        end
  end.

(** The part of [StopProcess] guarded by
    [process.cmd != nil && process.cmd.Process != nil]; it yields the error of
    the early return, if any. *)
Definition terminate (processID : Z) (pid : positive) (env : StopEnv)
  : M (option Error) :=
  run* emit (EvSigterm pid (sigterm_ok env)) in
  if negb (sigterm_ok env) then ret (Some (ErrSigterm processID))
  else if exits_in_grace env then
    run* emit (EvExited pid) in ret None
  else
    run* pass_time 10000 in
    run* emit (EvGraceTimeout pid) in
    run* emit (EvKill pid) in
    run* emit (EvExited pid) in
    ret None.

Definition StopProcess (processID : Z) (env : StopEnv) : M (option Error) :=
  let* found := lookup_process processID in
  match found with
  | None => ret (Some (ErrNotFound processID))
  | Some process =>
      if negb (bool_decide (State process = StateRunning))
      then ret (Some (ErrNotRunning processID))
      else
        run* assign_State processID StateStopping in
        let* p := deref processID in
        let* early :=
          match cmd p with
          | Some c =>
              match Process c with
              | Some pid => terminate processID pid env
              | None => ret None
              end
          | None => ret None
          end in
        match early with
        | Some err => ret (Some err)
        | None =>
            run* assign_State processID StateStopped in
            let* now := time_Now (stop_elapsed env) in
            run* assign processID (set_EndTime (Some now)) in
            ret None
        end
  end.

Definition RestartProcess (processID : Z) (senv : StopEnv) (env : StartEnv)
  : M (option Error) :=
  let* found := lookup_process processID in
  match found with
  | None => ret (Some (ErrNotFound processID))
  | Some process =>
      if bool_decide (RestartCount process >= MaxRestarts process)
      then ret (Some (ErrMaxRestarts processID (MaxRestarts process)))
      else
        run* assign_State processID StateRestarting in
        let* p := deref processID in
        run* assign processID (set_RestartCount (int_incr (RestartCount p))) in
        let* p := deref processID in
        run* (if bool_decide (State p = StateRunning)
                 || bool_decide (State p = StateStarting)
              then StopProcess processID senv
              else ret None) in
        run* pass_time 2000 in
        run* emit (EvSleep 2000) in
        StartProcess processID env
  end.

(** [HealthCheck.Check(process)]; [sig0_ok] is the answer to signal 0. *)
Definition Check (h : HealthChecker) (process : ManagedProcess) (sig0_ok : bool)
  : bool :=
  match h with
  | DefaultHealthChecker =>
      match cmd process with
      | Some c =>
          match Process c with
          | Some _ => sig0_ok
          | None => false
          end
      | None => false
      end
  | HTTPHealthChecker _ _ _ =>
      match cmd process with
      | Some c =>
          match Process c with
          | Some _ => true
          | None => false
          end
      | None => false
      end
  end.

(** What wakes the [select] of [monitorProcess]. *)
Inductive MonitorWake : Type := WakeTick | WakeShutdown.

(** What the loop of [monitorProcess] does after one round. *)
Inductive MonitorNext : Type := MonitorContinue | MonitorReturn.

(** One round of the loop of [monitorProcess] for the record behind
    [process]. *)
Definition monitorProcess (process : Z) (wake : MonitorWake) (sig0_ok : bool)
  : M MonitorNext :=
  match wake with
  | WakeTick =>
      let* p := deref process in
      if negb (bool_decide (State p = StateRunning)) then ret MonitorReturn
      else if negb (Check (HealthCheck p) p sig0_ok) then
        run* assign_State process StateFailed in
        let* p := deref process in
        run* (if bool_decide (RestartCount p < MaxRestarts p)
              then emit (EvSpawnRestart (ID p))
              else ret tt) in
        ret MonitorReturn
      else ret MonitorContinue
  | WakeShutdown =>
      let* m := get_plm in
      if shutdownClosed m then ret MonitorReturn else ret MonitorContinue
  end.

Definition GetProcessStatus (processID : Z) : M (option ManagedProcess * option Error) :=
  let* found := lookup_process processID in
  match found with
  | None => ret (None, Some (ErrNotFound processID))
  | Some process => ret (Some process, None)
  end.

(** [close(plm.shutdownChannel)] *)
Definition close_shutdownChannel : M unit := fun s =>
  if shutdownClosed (plm s) then Panic CloseOfClosedChannel s []
  else Ret tt (mkSys (mkManager (processes (plm s)) (nextProcessID (plm s)) true)
                     (clock s))
              [EvCloseShutdown].

(** The second loop of [ShutdownAll]; the result of [StopProcess] is dropped. *)
Fixpoint stop_each (running : list ManagedProcess) (env : Z -> StopEnv) : M unit :=
  match running with
  | [] => ret tt
  | process :: rest =>
      run* StopProcess (ID process) (env (ID process)) in
      stop_each rest env
  end.

(** Go leaves the order in which a map is ranged over open; the model takes
    the order of [map_to_list]. *)
Definition ShutdownAll (env : Z -> StopEnv) : M unit :=
  run* close_shutdownChannel in
  let* m := get_plm in
  let runningProcesses :=
    filter (fun process => State process = StateRunning)
           (snd <$> map_to_list (processes m)) in
  stop_each runningProcesses env.

Definition SetProcessEnvironment (processID : Z) (env : gmap string string)
  : M (option Error) :=
  let* found := lookup_process processID in
  match found with
  | None => ret (Some (ErrNotFound processID))
  | Some process =>
      run* assign processID (fun p => set_Environment (env ∪ Environment p) p) in
      ret None
  end.

Definition SetProcessDependencies (processID : Z) (dependencies : list Z)
  : M (option Error) :=
  let* found := lookup_process processID in
  match found with
  | None => ret (Some (ErrNotFound processID))
  | Some process =>
      run* assign processID (set_Dependencies dependencies) in
      ret None
  end.

(** ** Runs of the program

    A call of the API, or one round of a monitor, with the answers the
    operating system gives during it. *)
Inductive Call : Type :=
| CallCreate (name : string) (command : list string) (dt : N)
| CallStart (id : Z) (env : StartEnv)
| CallStop (id : Z) (env : StopEnv)
| CallRestart (id : Z) (senv : StopEnv) (env : StartEnv)
| CallMonitor (id : Z) (wake : MonitorWake) (sig0_ok : bool)
| CallShutdownAll (env : Z -> StopEnv)
| CallSetEnv (id : Z) (env : gmap string string)
| CallSetDeps (id : Z) (deps : list Z).

Definition discard {A : Type} (m : M A) : M unit := run* m in ret tt.

(** A monitor exists only for a record of the registry.  A run may give a
    round to a monitor, or make a restart, that the program would not have
    going at that point: what holds of every run holds of the program's. *)
Definition exec (c : Call) : M unit :=
  match c with
  | CallCreate name command dt => discard (CreateProcess name command dt)
  | CallStart id env => discard (StartProcess id env)
  | CallStop id env => discard (StopProcess id env)
  | CallRestart id senv env => discard (RestartProcess id senv env)
  | CallMonitor id wake sig0_ok =>
      let* found := lookup_process id in
      match found with
      | Some _ => discard (monitorProcess id wake sig0_ok)
      | None => ret tt
      end
  | CallShutdownAll env => ShutdownAll env
  | CallSetEnv id env => discard (SetProcessEnvironment id env)
  | CallSetDeps id deps => discard (SetProcessDependencies id deps)
  end.

Fixpoint run (cs : list Call) : M unit :=
  match cs with
  | [] => ret tt
  | c :: rest => run* exec c in run rest
  end.

(** The program right after [NewProcessLifecycleManager()], the clock
    reading [t0]. *)
Definition boot (t0 : Z) : Sys := mkSys NewProcessLifecycleManager t0.

(** States in which the program can be between two operations. *)
Definition reachable (s : Sys) : Prop :=
  exists t0 cs t, run cs (boot t0) = Ret tt s t.

(** Projections of an outcome. *)
Definition final {A : Type} (r : Res A) : Sys :=
  match r with Ret _ s _ => s | Panic _ s _ => s end.

Definition trace {A : Type} (r : Res A) : list Event :=
  match r with Ret _ _ t => t | Panic _ _ t => t end.

Definition returned {A : Type} (r : Res A) : option A :=
  match r with Ret a _ _ => Some a | Panic _ _ _ => None end.

(** The record stored under [id]. *)
Definition record (s : Sys) (id : Z) : option ManagedProcess :=
  processes (plm s) !! id.

(** ** Listing *)

(** [ProcessState] is an [int]; the constants count up from 0 ([iota]). *)
Definition state_code (ps : ProcessState) : Z :=
  match ps with
  | StateCreated => 0
  | StateStarting => 1
  | StateRunning => 2
  | StateStopping => 3
  | StateStopped => 4
  | StateFailed => 5
  | StateRestarting => 6
  end.

Definition state_names : list string :=
  ["Created"; "Starting"; "Running"; "Stopping"; "Stopped"; "Failed";
   "Restarting"].

(** [ProcessState.String] on the integer behind a state. [None] is the panic
    of [states[ps]] for an index below zero. *)
Definition ProcessState_String (ps : Z) : option string :=
  if ps <? Z.of_nat (length state_names) then
    if ps <? 0 then None else state_names !! Z.to_nat ps
  else Some "Unknown".

(** [s[:n]] for [0 <= n <= len(s)], on bytes. *)
Fixpoint string_take (n : nat) (s : string) : string :=
  match n, s with
  | S n', String c s' => String c (string_take n' s')
  | _, _ => EmptyString
  end.

(** [truncateString]. [None] is the panic of [s[:length-3]] for a negative
    bound; the bound cannot exceed [len(s)] on that branch. *)
Definition truncateString (s : string) (length : Z) : option string :=
  if Z.of_nat (String.length s) <=? length then Some s
  else if length - 3 <? 0 then None
  else Some (string_take (Z.to_nat (length - 3)) s +:+ "...").

(** The uptime [ListProcesses] works out for a record, [now] being the
    reading of the clock that [time.Since] takes. *)
Definition ListProcesses_uptime (now : Z) (process : ManagedProcess) : Z :=
  match EndTime process with
  | Some e => e - StartTime process
  | None => now - StartTime process
  end.

(** What [ListProcesses] hands to [Printf] for a record; the pid column is
    [None] where the program prints a dash, the uptime is the duration before
    [formatDuration]. A [None] in the name or the state column is a panic. *)
Record Row : Type := mkRow {
  row_ID : Z;
  row_pid : option Z;
  row_name : option string;
  row_state : option string;
  row_restarts : Z;
  row_uptime : Z;
  row_command : string
}.

Definition ListProcesses_row (now : Z) (process : ManagedProcess) : Row :=
  mkRow (ID process)
        (if decide (PID process = 0) then None else Some (PID process))
        (truncateString (Name process) 20)
        (ProcessState_String (state_code (State process)))
        (RestartCount process)
        (ListProcesses_uptime now process)
        (String.concat " " (Command process)).

(** ** The interactive loop *)

(** The operating system's answers during one command. *)
Record Answers : Type := mkAnswers {
  ans_elapsed : N;
  ans_start : StartEnv;
  ans_stop : StopEnv;
  ans_shutdown : Z -> StopEnv
}.

Inductive LoopNext : Type := LoopAgain | LoopReturn.

(** One round of the loop of [InteractiveMode] on [parts], the fields of the
    line read; [Atoi] is [strconv.Atoi], [None] its error. What is only
    printed leaves no mark. *)
Definition interactive_command (Atoi : string -> option Z)
  (parts : list string) (a : Answers) : M LoopNext :=
  match parts with
  | [] => ret LoopAgain
  | command :: args =>
      if decide (command = "create") then
        match args with
        | name :: c0 :: rest =>
            run* CreateProcess name (c0 :: rest) (ans_elapsed a) in
            ret LoopAgain
        | _ => ret LoopAgain
        end
      else if decide (command = "start") then
        match args with
        | [] => ret LoopAgain
        | arg :: _ =>
            match Atoi arg with
            | None => ret LoopAgain
            | Some id => run* StartProcess id (ans_start a) in ret LoopAgain
            end
        end
      else if decide (command = "stop") then
        match args with
        | [] => ret LoopAgain
        | arg :: _ =>
            match Atoi arg with
            | None => ret LoopAgain
            | Some id => run* StopProcess id (ans_stop a) in ret LoopAgain
            end
        end
      else if decide (command = "restart") then
        match args with
        | [] => ret LoopAgain
        | arg :: _ =>
            match Atoi arg with
            | None => ret LoopAgain
            | Some id =>
                run* RestartProcess id (ans_stop a) (ans_start a) in
                ret LoopAgain
            end
        end
      else if decide (command = "list") then ret LoopAgain
      else if decide (command = "status") then
        match args with
        | [] => ret LoopAgain
        | arg :: _ =>
            match Atoi arg with
            | None => ret LoopAgain
            | Some id => run* GetProcessStatus id in ret LoopAgain
            end
        end
      else if decide (command = "shutdown") then
        run* ShutdownAll (ans_shutdown a) in ret LoopAgain
      else if decide (command = "quit") then
        run* ShutdownAll (ans_shutdown a) in ret LoopReturn
      else if decide (command = "exit") then
        run* ShutdownAll (ans_shutdown a) in ret LoopReturn
      else ret LoopAgain
  end.

(** The loop of [InteractiveMode] on the lines read so far. *)
Fixpoint InteractiveMode (Atoi : string -> option Z)
  (inputs : list (list string * Answers)) : M LoopNext :=
  match inputs with
  | [] => ret LoopAgain
  | (parts, a) :: rest =>
      let* next := interactive_command Atoi parts a in
      match next with
      | LoopReturn => ret LoopReturn
      | LoopAgain => InteractiveMode Atoi rest
      end
  end.

(** * Vocabulary of the properties *)

(** ** Stores *)

(** The registry with the record under [id] replaced by [p]. *)
Definition put (id : Z) (p : ManagedProcess) (s : Sys) : Sys :=
  with_processes (insert id p) s.

(** Advancing the clock does not touch the registry. *)
Definition at_time (t : Z) (s : Sys) : Sys := mkSys (plm s) t.

(** The program with [shutdownChannel] closed. *)
Definition closed (s : Sys) : Sys :=
  mkSys (mkManager (processes (plm s)) (nextProcessID (plm s)) true) (clock s).

(** An outcome with [t] put in front of its trace. *)
Definition after_events {A : Type} (t : list Event) (r : Res A) : Res A :=
  match r with
  | Ret a s t' => Ret a s (t ++ t')
  | Panic w s t' => Panic w s (t ++ t')
  end.

(** ** Records after an operation *)

(** The record after a successful launch with pid [pid] at time [t]. *)
Definition launched (p : ManagedProcess) (pid : positive) (t : Z)
  : ManagedProcess :=
  set_StartTime t
    (set_State StateRunning
       (set_PID (Z.pos pid)
          (set_cmd (Some (mkCmd (Command p) (WorkDir p) (Some pid))) p))).

(** The record after a stop that went through, the end time being [t]. *)
Definition stopped (p : ManagedProcess) (t : Z) : ManagedProcess :=
  set_EndTime (Some t) (set_State StateStopped p).

(** The record as [RestartProcess] hands it to [StartProcess]. *)
Definition restarting (p : ManagedProcess) : ManagedProcess :=
  set_RestartCount (int_incr (RestartCount p)) (set_State StateRestarting p).

(** [change t p p']: an operation that ends with the clock at [t] turns the
    record [p] into [p']. *)
Inductive change (t : Z) (p : ManagedProcess) : ManagedProcess -> Prop :=
| ch_idle st :
    st <> StateRunning -> st <> StateStopping -> change t p (set_State st p)
| ch_stopping :
    State p = StateRunning -> change t p (set_State StateStopping p)
| ch_stopped t' : t' <= t -> change t p (stopped p t')
| ch_launched pid t' : t' <= t -> change t p (launched p pid t')
| ch_restarting :
    RestartCount p < MaxRestarts p -> change t p (restarting p)
| ch_env e : change t p (set_Environment e p)
| ch_deps d : change t p (set_Dependencies d p)
| ch_then q p' : change t p q -> change t q p' -> change t p p'.

(** [moves id s s']: an operation on the record under [id] takes the program
    from [s] to [s']. *)
Inductive moves (id : Z) (s : Sys) : Sys -> Prop :=
| moves_none : moves id s s
| moves_record p p' t :
    record s id = Some p -> clock s <= t -> change t p p' ->
    moves id s (at_time t (put id p' s)).

(** What an operation other than [CreateProcess] is made of. *)
Inductive step : Sys -> Sys -> Prop :=
| step_moves id s s' : moves id s s' -> step s s'
| step_close s : step s (closed s).

(** ** Invariants *)

(** The record holds the handle of a launched process, and its pid. *)
Definition has_handle (p : ManagedProcess) : Prop :=
  exists c pid, cmd p = Some c /\ Process c = Some pid /\ PID p = Z.pos pid.

(** The record has never been launched with success. *)
Definition never_launched (p : ManagedProcess) : Prop :=
  cmd p = None /\ PID p = 0 /\
  State p <> StateRunning /\ State p <> StateStopping.

Definition sound (p : ManagedProcess) : Prop :=
  never_launched p \/ has_handle p.

(** Every record sits under its own id, is sound, and was started in the
    past. *)
Definition consistent (s : Sys) : Prop :=
  forall id p, record s id = Some p ->
    ID p = id /\ sound p /\ StartTime p <= clock s.

(** The ids in use lie below the next one to be given out. *)
Definition ids_fresh (s : Sys) : Prop :=
  1 <= nextProcessID (plm s) /\
  forall id, is_Some (record s id) -> 1 <= id < nextProcessID (plm s).

(** ** Counting launches *)

Definition is_launch (id : Z) (e : Event) : bool :=
  match e with
  | EvLaunch i _ _ _ => bool_decide (i = id)
  | _ => false
  end.

(** How often [cmd.Start()] is called for the record [id] in a trace. *)
Definition launches (id : Z) (t : list Event) : nat :=
  length (List.filter (is_launch id) t).

(** The launches for the record [id] that the call [c] makes from inside
    [RestartProcess]. *)
Definition restart_launches_of (id : Z) (c : Call) (s : Sys) : nat :=
  match c with
  | CallRestart _ _ _ => launches id (trace (exec c s))
  | _ => 0%nat
  end.

(** How often [cmd.Start()] is called for the record [id] from inside calls
    of [RestartProcess] during the run [cs] from [s]; a panic ends the run. *)
Fixpoint restart_launches (id : Z) (cs : list Call) (s : Sys) : nat :=
  match cs with
  | [] => 0
  | c :: rest =>
      (restart_launches_of id c s +
       match exec c s with
       | Ret _ s' _ => restart_launches id rest s'
       | Panic _ _ _ => 0
       end)%nat
  end.

(** The events by which the stop algorithm shows: the two states it goes
    through, the signals, the timer and the wait. *)
Definition stop_event (e : Event) : bool :=
  match e with
  | EvState _ StateStopping | EvState _ StateStopped => true
  | EvSigterm _ _ | EvKill _ | EvExited _ | EvGraceTimeout _ => true
  | _ => false
  end.

(** ** A demo run *)

Definition sleeper : list string := ["sleep"; "30"].

Definition demo_calls : list Call :=
  [CallCreate "sleeper" sleeper 0;
   CallStart 1 (mkStartEnv (Some 4242%positive) 5)].

(** The record after [demo_calls]: running with pid 4242 since time 105. *)
Definition demo_record : ManagedProcess :=
  mkProcess 1 4242 "sleeper" sleeper StateRunning 105 None 0 3
    DefaultHealthChecker [] ∅ "/tmp" ""
    (Some (mkCmd sleeper "/tmp" (Some 4242%positive))).

(** The program after [demo_calls] from time 100. *)
Definition demo_started : Sys :=
  mkSys (mkManager {[1 := demo_record]} 2 false) 105.

Definition demo_stop_calls : list Call :=
  demo_calls ++ [CallStop 1 (mkStopEnv true true 7)].

(** The record after [StopProcess(1)], the child leaving on SIGTERM. *)
Definition demo_stopped_record : ManagedProcess := stopped demo_record 112.

(** The program after [demo_stop_calls] from time 100. *)
Definition demo_stopped : Sys :=
  mkSys (mkManager {[1 := demo_stopped_record]} 2 false) 112.

(** The record of [demo_started] restarted five times, each launch a
    success: the last two calls are turned down. *)
Definition demo_restarts : list Call :=
  replicate 5 (CallRestart 1 (mkStopEnv true true 1)
                 (mkStartEnv (Some 6000%positive) 1)).

(** Two records, the second depending on the first, none started. *)
Definition demo_dependent_calls : list Call :=
  [CallCreate "db" sleeper 0; CallCreate "web" sleeper 0; CallSetDeps 2 [1]].

Definition demo_db : ManagedProcess :=
  mkProcess 1 0 "db" sleeper StateCreated 100 None 0 3
    DefaultHealthChecker [] ∅ "/tmp" "" None.

Definition demo_web : ManagedProcess :=
  mkProcess 2 0 "web" sleeper StateCreated 100 None 0 3
    DefaultHealthChecker [1] ∅ "/tmp" "" None.

(** The program after [demo_dependent_calls] from time 100. *)
Definition demo_dependent : Sys :=
  mkSys (mkManager {[1 := demo_db; 2 := demo_web]} 3 false) 100.

(** The record [CreateProcess] makes of an empty command right after boot. *)
Definition demo_empty : ManagedProcess :=
  mkProcess 1 0 "none" [] StateCreated 100 None 0 3
    DefaultHealthChecker [] ∅ "/tmp" "" None.

(** ** Statements the program does not satisfy *)

(** The pid field is non-zero exactly in the three live states. *)
Definition pid_iff_live (s : Sys) : Prop :=
  forall id p, record s id = Some p ->
    (PID p <> 0 <->
     State p = StateStarting \/ State p = StateRunning \/
     State p = StateStopping).

(** [StartProcess] turns down a record that is neither Created nor Failed:
    an error, the program as it was, nothing done to the outside. *)
Definition start_rejects_unless_startable : Prop :=
  forall s id p env,
    record s id = Some p ->
    State p <> StateCreated -> State p <> StateFailed ->
    exists err, StartProcess id env s = Ret (Some err) s [].

(** When SIGTERM cannot be delivered, [StopProcess] gives the error back but
    still kills, and the record ends Stopped. *)
Definition sigterm_failure_still_kills : Prop :=
  forall s id p c pid env,
    record s id = Some p -> State p = StateRunning ->
    cmd p = Some c -> Process c = Some pid ->
    sigterm_ok env = false ->
    exists s' t,
      StopProcess id env s = Ret (Some (ErrSigterm id)) s' t /\
      In (EvKill pid) t /\
      State <$> record s' id = Some StateStopped.

(** [CreateProcess] fails on an empty command. *)
Definition create_rejects_empty_command : Prop :=
  forall name dt s, returned (CreateProcess name [] dt s) = None.

(** ** Further vocabulary *)

(** The records of [S] are not Running and each waits for one of [S]. *)
Definition deadlocked (S : gset Z) (s : Sys) : Prop :=
  forall id, id ∈ S ->
    exists p, record s id = Some p /\ State p <> StateRunning /\
              exists d, In d (Dependencies p) /\ d ∈ S.

(** A call that sets the dependencies of a record of [S]. *)
Definition sets_deps_in (S : gset Z) (c : Call) : Prop :=
  match c with
  | CallSetDeps id _ => id ∈ S
  | _ => False
  end.

(** Every record has a command to run. *)
Definition commands_nonempty (s : Sys) : Prop :=
  forall id p, record s id = Some p -> Command p <> [].

(** The number of [CreateProcess] among the calls. *)
Fixpoint creates (cs : list Call) : nat :=
  match cs with
  | [] => 0
  | CallCreate _ _ _ :: rest => S (creates rest)
  | _ :: rest => creates rest
  end.

(** The fields no operation of the program sets after [CreateProcess]. *)
Definition factory_settings (p : ManagedProcess) : Prop :=
  MaxRestarts p = 3 /\ 0 <= RestartCount p <= 3 /\
  HealthCheck p = DefaultHealthChecker /\ WorkDir p = "/tmp" /\
  LogFile p = "".

(** No record ended in the future. *)
Definition timely (s : Sys) : Prop :=
  forall id p e, record s id = Some p -> EndTime p = Some e -> e <= clock s.

(** The panic an outcome ends in, if it does. *)
Definition panic_of {A : Type} (r : Res A) : option GoPanic :=
  match r with Ret _ _ _ => None | Panic w _ _ => Some w end.



(** Two records that wait for each other. *)
Definition demo_cycle_calls : list Call :=
  [CallCreate "a" sleeper 0; CallCreate "b" sleeper 0;
   CallSetDeps 1 [2]; CallSetDeps 2 [1]].

Definition demo_cycle : Sys :=
  mkSys (mkManager
           {[1 := mkProcess 1 0 "a" sleeper StateCreated 100 None 0 3
                    DefaultHealthChecker [2] ∅ "/tmp" "" None;
             2 := mkProcess 2 0 "b" sleeper StateCreated 100 None 0 3
                    DefaultHealthChecker [1] ∅ "/tmp" "" None]}
           3 false) 100.

(** Attempts to get the two going. *)
Definition demo_cycle_attempts : list Call :=
  [CallStart 1 (mkStartEnv (Some 11%positive) 1);
   CallStart 2 (mkStartEnv (Some 12%positive) 1);
   CallRestart 1 (mkStopEnv true true 1) (mkStartEnv (Some 13%positive) 1);
   CallRestart 2 (mkStopEnv true true 1) (mkStartEnv (Some 14%positive) 1)].

(** * Properties *)

(** ** The store *)

Lemma record_put_eq id p s : record (put id p s) id = Some p.
Proof. unfold record, put; simpl. apply lookup_insert_eq. Qed.

Lemma record_put_ne id k p s : id <> k -> record (put id p s) k = record s k.
Proof. intros. unfold record, put; simpl. by apply lookup_insert_ne. Qed.

Lemma put_put id p q s : put id q (put id p s) = put id q s.
Proof. unfold put, with_processes; simpl. by rewrite insert_insert_eq. Qed.

Lemma clock_put id p s : clock (put id p s) = clock s.
Proof. reflexivity. Qed.

Lemma assign_eq id f p s :
  record s id = Some p -> assign id f s = Ret tt (put id (f p) s) [].
Proof.
  unfold record, assign, put, with_processes. intros H. do 3 f_equal.
  apply map_eq. intros k. destruct (decide (id = k)) as [->|Hne].
  - by rewrite lookup_alter_eq, lookup_insert_eq, H.
  - by rewrite lookup_alter_ne, lookup_insert_ne.
Qed.

Lemma assign_State_eq id st p s :
  record s id = Some p ->
  assign_State id st s = Ret tt (put id (set_State st p) s) [EvState id st].
Proof.
  intros H. unfold assign_State, bind. by rewrite (assign_eq _ _ _ _ H).
Qed.

Lemma deref_eq id p s : record s id = Some p -> deref id s = Ret p s [].
Proof. unfold record, deref. by intros ->. Qed.

Lemma lookup_process_eq id s : lookup_process id s = Ret (record s id) s [].
Proof. reflexivity. Qed.

Lemma record_at_time t s id : record (at_time t s) id = record s id.
Proof. reflexivity. Qed.

Lemma put_at_time id p t s : put id p (at_time t s) = at_time t (put id p s).
Proof. reflexivity. Qed.

Lemma at_time_at_time t u s : at_time t (at_time u s) = at_time t s.
Proof. reflexivity. Qed.

Lemma clock_at_time t s : clock (at_time t s) = t.
Proof. reflexivity. Qed.

Lemma at_time_same s : at_time (clock s) s = s.
Proof. by destruct s. Qed.

Lemma time_Now_eq dt s :
  time_Now dt s = Ret (clock s + Z.of_N dt) (at_time (clock s + Z.of_N dt) s) [].
Proof. reflexivity. Qed.

Lemma pass_time_eq ms s : pass_time ms s = Ret tt (at_time (clock s + ms) s) [].
Proof. reflexivity. Qed.

(** Symbolic execution of the primitives on a store whose record under the
    pointer is known. *)
Ltac known_record :=
  rewrite ?record_at_time, ?record_put_eq; first [reflexivity | eassumption].

Ltac mstep :=
  first
    [ rewrite lookup_process_eq
    | erewrite assign_State_eq by known_record
    | erewrite assign_eq by known_record
    | erewrite deref_eq by known_record
    | rewrite time_Now_eq
    | rewrite pass_time_eq ];
  rewrite ?put_at_time, ?put_put, ?at_time_at_time, ?clock_at_time, ?clock_put.

(** ** What each operation does, case by case *)

Section StartProcess_cases.
Variables (id : Z) (env : StartEnv) (s : Sys).

Lemma StartProcess_unknown :
  record s id = None ->
  StartProcess id env s = Ret (Some (ErrNotFound id)) s [].
Proof. intros H. unfold StartProcess, bind. mstep. by rewrite H. Qed.

Variable p : ManagedProcess.
Hypothesis Hp : record s id = Some p.

Lemma StartProcess_blocked :
  checkDependencies_loop (processes (plm s)) (Dependencies p) = false ->
  StartProcess id env s = Ret (Some (ErrDependencies id)) s [].
Proof.
  intros H. unfold StartProcess, bind. mstep. rewrite Hp.
  unfold checkDependencies. by rewrite H.
Qed.

Hypothesis Hdeps :
  checkDependencies_loop (processes (plm s)) (Dependencies p) = true.

Lemma StartProcess_no_command :
  Command p = [] ->
  StartProcess id env s =
  Panic IndexOutOfRange (put id (set_State StateStarting p) s)
    [EvState id StateStarting].
Proof.
  intros H. unfold StartProcess, bind. mstep. rewrite Hp.
  unfold checkDependencies. rewrite Hdeps. cbn [negb].
  do 2 mstep. cbn [Command set_State]. by rewrite H.
Qed.

Hypothesis Hcmd : Command p <> [].

Lemma StartProcess_launch_failed :
  launch env = None ->
  StartProcess id env s =
  Ret (Some (ErrStartFailed id)) (put id (set_State StateFailed p) s)
    [EvState id StateStarting;
     EvLaunch id (Command p) (WorkDir p) None;
     EvState id StateFailed].
Proof.
  intros H. unfold StartProcess, bind. mstep. rewrite Hp.
  unfold checkDependencies. rewrite Hdeps. cbn [negb].
  do 2 mstep. cbn [Command WorkDir set_State Args Dir].
  destruct (Command p) as [|c0 args] eqn:E; [done|]. unfold emit. rewrite H.
  repeat mstep. reflexivity.
Qed.

Lemma StartProcess_launched pid :
  launch env = Some pid ->
  let t := clock s + Z.of_N (start_elapsed env) in
  StartProcess id env s =
  Ret None (at_time t (put id (launched p pid t) s))
    [EvState id StateStarting;
     EvLaunch id (Command p) (WorkDir p) (Some pid);
     EvState id StateRunning;
     EvSpawnMonitor id].
Proof.
  intros H t. unfold launched, StartProcess, bind. mstep. rewrite Hp.
  unfold checkDependencies. rewrite Hdeps. cbn [negb].
  do 2 mstep. cbn [Command WorkDir set_State Args Dir].
  destruct (Command p) as [|c0 args] eqn:E; [done|]. unfold emit. rewrite H.
  repeat mstep. reflexivity.
Qed.
End StartProcess_cases.

Section StopProcess_cases.
Variables (id : Z) (env : StopEnv) (s : Sys).

Lemma StopProcess_unknown :
  record s id = None ->
  StopProcess id env s = Ret (Some (ErrNotFound id)) s [].
Proof. intros H. unfold StopProcess, bind. mstep. by rewrite H. Qed.

Variable p : ManagedProcess.
Hypothesis Hp : record s id = Some p.

Lemma StopProcess_not_running :
  State p <> StateRunning ->
  StopProcess id env s = Ret (Some (ErrNotRunning id)) s [].
Proof.
  intros H. unfold StopProcess, bind. mstep. rewrite Hp.
  by rewrite bool_decide_eq_false_2.
Qed.

Hypothesis Hrun : State p = StateRunning.

Lemma StopProcess_no_handle :
  (cmd p = None \/ exists c, cmd p = Some c /\ Process c = None) ->
  let t := clock s + Z.of_N (stop_elapsed env) in
  StopProcess id env s =
  Ret None (at_time t (put id (stopped p t) s))
    [EvState id StateStopping; EvState id StateStopped].
Proof.
  intros H t. unfold StopProcess, bind. mstep. rewrite Hp.
  rewrite bool_decide_eq_true_2 by done. cbn [negb].
  do 2 mstep. cbn [cmd set_State].
  destruct H as [-> | (c & -> & ->)]; unfold ret; repeat mstep; reflexivity.
Qed.

Variables (c : Cmd) (pid : positive).
Hypothesis Hcmd : cmd p = Some c.
Hypothesis Hpid : Process c = Some pid.

Lemma StopProcess_sigterm_failed :
  sigterm_ok env = false ->
  StopProcess id env s =
  Ret (Some (ErrSigterm id)) (put id (set_State StateStopping p) s)
    [EvState id StateStopping; EvSigterm pid false].
Proof.
  intros H. unfold StopProcess, bind. mstep. rewrite Hp.
  rewrite bool_decide_eq_true_2 by done. cbn [negb].
  do 2 mstep. cbn [cmd set_State]. rewrite Hcmd, Hpid.
  unfold terminate, bind, emit. rewrite H. reflexivity.
Qed.

Hypothesis Hsig : sigterm_ok env = true.

Lemma StopProcess_graceful :
  exits_in_grace env = true ->
  let t := clock s + Z.of_N (stop_elapsed env) in
  StopProcess id env s =
  Ret None (at_time t (put id (stopped p t) s))
    [EvState id StateStopping; EvSigterm pid true; EvExited pid;
     EvState id StateStopped].
Proof.
  intros H t. unfold StopProcess, bind. mstep. rewrite Hp.
  rewrite bool_decide_eq_true_2 by done. cbn [negb].
  do 2 mstep. cbn [cmd set_State]. rewrite Hcmd, Hpid.
  unfold terminate, bind, emit. rewrite Hsig, H. cbn [negb ret].
  repeat mstep. reflexivity.
Qed.

Lemma StopProcess_forced :
  exits_in_grace env = false ->
  let t := clock s + 10000 + Z.of_N (stop_elapsed env) in
  StopProcess id env s =
  Ret None (at_time t (put id (stopped p t) s))
    [EvState id StateStopping; EvSigterm pid true; EvGraceTimeout pid;
     EvKill pid; EvExited pid; EvState id StateStopped].
Proof.
  intros H t. unfold StopProcess, bind. mstep. rewrite Hp.
  rewrite bool_decide_eq_true_2 by done. cbn [negb].
  do 2 mstep. cbn [cmd set_State]. rewrite Hcmd, Hpid.
  unfold terminate, bind, emit. rewrite Hsig, H. cbn [negb ret].
  repeat mstep. reflexivity.
Qed.
End StopProcess_cases.

Section RestartProcess_cases.
Variables (id : Z) (senv : StopEnv) (env : StartEnv) (s : Sys).

Lemma RestartProcess_unknown :
  record s id = None ->
  RestartProcess id senv env s = Ret (Some (ErrNotFound id)) s [].
Proof. intros H. unfold RestartProcess, bind. mstep. by rewrite H. Qed.

Variable p : ManagedProcess.
Hypothesis Hp : record s id = Some p.

Lemma RestartProcess_refused :
  RestartCount p >= MaxRestarts p ->
  RestartProcess id senv env s =
  Ret (Some (ErrMaxRestarts id (MaxRestarts p))) s [].
Proof.
  intros H. unfold RestartProcess, bind. mstep. rewrite Hp.
  by rewrite bool_decide_eq_true_2.
Qed.

Lemma RestartProcess_granted :
  RestartCount p < MaxRestarts p ->
  RestartProcess id senv env s =
  after_events [EvState id StateRestarting; EvSleep 2000]
    (StartProcess id env (at_time (clock s + 2000) (put id (restarting p) s))).
Proof.
  intros H. unfold RestartProcess, bind. mstep. rewrite Hp.
  rewrite bool_decide_eq_false_2 by lia.
  do 4 mstep. cbn [State set_State set_RestartCount orb bool_decide].
  rewrite !bool_decide_eq_false_2 by done. cbn [orb ret].
  mstep. unfold emit, restarting. cbn [RestartCount set_State].
  destruct (StartProcess _ _ _); reflexivity.
Qed.
End RestartProcess_cases.

Section monitorProcess_cases.
Variables (id : Z) (sig0_ok : bool) (s : Sys) (p : ManagedProcess).
Hypothesis Hp : record s id = Some p.

Lemma monitorProcess_not_running :
  State p <> StateRunning ->
  monitorProcess id WakeTick sig0_ok s = Ret MonitorReturn s [].
Proof.
  intros H. unfold monitorProcess, bind. mstep.
  by rewrite bool_decide_eq_false_2.
Qed.

Hypothesis Hrun : State p = StateRunning.

Lemma monitorProcess_healthy :
  Check (HealthCheck p) p sig0_ok = true ->
  monitorProcess id WakeTick sig0_ok s = Ret MonitorContinue s [].
Proof.
  intros H. unfold monitorProcess, bind. mstep.
  rewrite bool_decide_eq_true_2 by done. by rewrite H.
Qed.

Lemma monitorProcess_unhealthy :
  Check (HealthCheck p) p sig0_ok = false ->
  monitorProcess id WakeTick sig0_ok s =
  Ret MonitorReturn (put id (set_State StateFailed p) s)
    (EvState id StateFailed ::
     if bool_decide (RestartCount p < MaxRestarts p)
     then [EvSpawnRestart (ID p)] else []).
Proof.
  intros H. unfold monitorProcess, bind. mstep.
  rewrite bool_decide_eq_true_2 by done. rewrite H. cbn [negb].
  do 2 mstep. cbn [RestartCount MaxRestarts ID set_State].
  destruct (bool_decide _); reflexivity.
Qed.
End monitorProcess_cases.

Lemma monitorProcess_shutdown id sig0_ok s :
  monitorProcess id WakeShutdown sig0_ok s =
  Ret (if shutdownClosed (plm s) then MonitorReturn else MonitorContinue) s [].
Proof.
  unfold monitorProcess, bind, get_plm. by destruct (shutdownClosed _).
Qed.

Lemma StartProcess_moves id env s : moves id s (final (StartProcess id env s)).
Proof.
  destruct (record s id) as [p|] eqn:Hp;
    [| rewrite StartProcess_unknown by done; constructor].
  destruct (checkDependencies_loop (processes (plm s)) (Dependencies p)) eqn:Hd;
    [| erewrite StartProcess_blocked by done; constructor].
  destruct (decide (Command p = [])) as [Hc|Hc].
  { erewrite StartProcess_no_command by done. simpl.
    rewrite <- (at_time_same (put _ _ _)). rewrite clock_put.
    eapply moves_record; [done | lia | by constructor]. }
  destruct (launch env) as [pid|] eqn:Hl.
  - erewrite StartProcess_launched by done. simpl.
    eapply moves_record; [done | lia | by constructor].
  - erewrite StartProcess_launch_failed by done. simpl.
    rewrite <- (at_time_same (put _ _ _)). rewrite clock_put.
    eapply moves_record; [done | lia | by constructor].
Qed.

Lemma StopProcess_moves id env s : moves id s (final (StopProcess id env s)).
Proof.
  destruct (record s id) as [p|] eqn:Hp;
    [| rewrite StopProcess_unknown by done; constructor].
  destruct (decide (State p = StateRunning)) as [Hr|Hr];
    [| erewrite StopProcess_not_running by done; constructor].
  destruct (cmd p) as [c|] eqn:Hc.
  2: { erewrite StopProcess_no_handle by (done || by left). simpl.
       eapply moves_record; [done | lia | by constructor]. }
  destruct (Process c) as [pid|] eqn:Hpid.
  2: { erewrite StopProcess_no_handle by (done || right; by exists c). simpl.
       eapply moves_record; [done | lia | by constructor]. }
  destruct (sigterm_ok env) eqn:Hs.
  2: { erewrite StopProcess_sigterm_failed by done. simpl.
       rewrite <- (at_time_same (put _ _ _)). rewrite clock_put.
       eapply moves_record; [done | lia | by constructor]. }
  destruct (exits_in_grace env) eqn:Hg.
  - erewrite StopProcess_graceful by done. simpl.
    eapply moves_record; [done | lia | by constructor].
  - erewrite StopProcess_forced by done. simpl.
    eapply moves_record; [done | lia | by constructor].
Qed.

Lemma change_later t u p p' : change t p p' -> t <= u -> change u p p'.
Proof.
  induction 1; intros Hu; try (by constructor); try (constructor; lia).
  eapply ch_then; eauto.
Qed.

Lemma moves_trans id s s1 s2 : moves id s s1 -> moves id s1 s2 -> moves id s s2.
Proof.
  intros [|p p' t Hp Ht Hc]; [done|].
  inversion 1 as [|q q' u Hq Hu Hc' E]; [by econstructor|].
  rewrite record_at_time, record_put_eq in Hq. injection Hq as <-.
  rewrite clock_at_time in Hu.
  rewrite put_at_time, put_put, at_time_at_time.
  eapply moves_record; [done | lia |].
  eapply ch_then; [eapply change_later|]; eauto.
Qed.

Lemma final_after_events {A} t (r : Res A) : final (after_events t r) = final r.
Proof. by destruct r. Qed.

Lemma RestartProcess_moves id senv env s :
  moves id s (final (RestartProcess id senv env s)).
Proof.
  destruct (record s id) as [p|] eqn:Hp;
    [| rewrite RestartProcess_unknown by done; constructor].
  destruct (decide (RestartCount p < MaxRestarts p)) as [Hr|Hr];
    [| erewrite RestartProcess_refused by (done || lia); constructor].
  erewrite RestartProcess_granted by done. rewrite final_after_events.
  eapply moves_trans; [| apply StartProcess_moves].
  eapply moves_record; [done | lia | by constructor].
Qed.

Lemma monitorProcess_moves id wake sig0_ok s :
  is_Some (record s id) ->
  moves id s (final (monitorProcess id wake sig0_ok s)).
Proof.
  intros [p Hp]. destruct wake; [| rewrite monitorProcess_shutdown; constructor].
  destruct (decide (State p = StateRunning)) as [Hr|Hr];
    [| erewrite monitorProcess_not_running by done; constructor].
  destruct (Check (HealthCheck p) p sig0_ok) eqn:Hh;
    [erewrite monitorProcess_healthy by done; constructor |].
  erewrite monitorProcess_unhealthy by done. simpl.
  rewrite <- (at_time_same (put _ _ _)). rewrite clock_put.
  eapply moves_record; [done | lia | by constructor].
Qed.

Lemma SetProcessEnvironment_moves id env s :
  moves id s (final (SetProcessEnvironment id env s)).
Proof.
  unfold SetProcessEnvironment, bind. mstep.
  destruct (record s id) as [p|] eqn:Hp; [| constructor].
  mstep. simpl. rewrite <- (at_time_same (put _ _ _)). rewrite clock_put.
  eapply moves_record; [done | lia | by constructor].
Qed.

Lemma SetProcessDependencies_moves id deps s :
  moves id s (final (SetProcessDependencies id deps s)).
Proof.
  unfold SetProcessDependencies, bind. mstep.
  destruct (record s id) as [p|] eqn:Hp; [| constructor].
  mstep. simpl. rewrite <- (at_time_same (put _ _ _)). rewrite clock_put.
  eapply moves_record; [done | lia | by constructor].
Qed.

Lemma final_discard {A} (m : M A) s : final (discard m s) = final (m s).
Proof. unfold discard, bind, ret. by destruct (m s). Qed.

Lemma stop_each_steps running env s :
  rtc step s (final (stop_each running env s)).
Proof.
  revert s. induction running as [|process rest IH]; intros s; [constructor|].
  simpl. unfold bind.
  pose proof (StopProcess_moves (ID process) (env (ID process)) s) as Hm.
  destruct (StopProcess _ _ s) as [r s1 t1 | w s1 t1]; simpl in *.
  - eapply rtc_l; [by eapply step_moves|].
    specialize (IH s1). by destruct (stop_each rest env s1).
  - apply rtc_once. by eapply step_moves.
Qed.

Lemma ShutdownAll_steps env s : rtc step s (final (ShutdownAll env s)).
Proof.
  unfold ShutdownAll, bind, close_shutdownChannel, get_plm.
  destruct (shutdownClosed (plm s)); [constructor|]. simpl.
  eapply rtc_l; [apply (step_close s)|].
  match goal with |- context [stop_each ?l env ?s1] =>
    pose proof (stop_each_steps l env s1) as H;
    destruct (stop_each l env s1) end; exact H.
Qed.

Lemma exec_steps c s :
  (forall name command dt, c <> CallCreate name command dt) ->
  rtc step s (final (exec c s)).
Proof.
  intros Hc. destruct c; simpl; rewrite ?final_discard.
  - by edestruct Hc.
  - apply rtc_once. eapply step_moves, StartProcess_moves.
  - apply rtc_once. eapply step_moves, StopProcess_moves.
  - apply rtc_once. eapply step_moves, RestartProcess_moves.
  - unfold bind. mstep. destruct (record s id) eqn:Hp; [| constructor].
    pose proof (monitorProcess_moves id wake sig0_ok s) as H.
    rewrite <- final_discard in H.
    destruct (discard _ s); apply rtc_once; eapply step_moves, H; by rewrite Hp.
  - apply ShutdownAll_steps.
  - apply rtc_once. eapply step_moves, SetProcessEnvironment_moves.
  - apply rtc_once. eapply step_moves, SetProcessDependencies_moves.
Qed.

(** ** What a change keeps *)

Lemma change_ID t p p' : change t p p' -> ID p' = ID p.
Proof. induction 1; simpl; congruence. Qed.

Lemma change_MaxRestarts t p p' : change t p p' -> MaxRestarts p' = MaxRestarts p.
Proof. induction 1; simpl; congruence. Qed.

Lemma change_PID_kept t p p' : change t p p' -> PID p <> 0 -> PID p' <> 0.
Proof. induction 1; simpl; auto; lia. Qed.

Lemma change_sound t p p' : change t p p' -> sound p -> sound p'.
Proof.
  induction 1; auto; unfold sound, never_launched, has_handle; simpl.
  - intros [(?&?&?&?)|?]; [left|right]; done.
  - intros [(?&?&?&?)|?]; [congruence|by right].
  - intros [(?&?&?&?)|?]; [left|right]; done.
  - intros _. right. by eexists _, _.
  - intros [(?&?&?&?)|?]; [left|right]; done.
Qed.

Lemma change_StartTime t p p' :
  change t p p' -> StartTime p <= t -> StartTime p' <= t.
Proof. induction 1; simpl; auto. Qed.

Lemma int_incr_eq i : min_int <= i -> i < max_int -> int_incr i = i + 1.
Proof.
  unfold int_incr, wrap_int, min_int, max_int. intros.
  rewrite Z.mod_small; lia.
Qed.

(** The restart counter only goes up, one at a time, and not beyond the
    maximum. *)
Lemma change_RestartCount t p p' :
  change t p p' ->
  min_int <= RestartCount p -> MaxRestarts p <= max_int ->
  RestartCount p <= RestartCount p' <=
    Z.max (RestartCount p) (MaxRestarts p).
Proof.
  induction 1; simpl; intros Hlo Hhi; try lia.
  - rewrite int_incr_eq by lia. lia.
  - apply change_MaxRestarts in H. lia.
Qed.

(** ** What a step keeps *)

(** A step leaves every record in place, changed or not. *)
Lemma step_record s s' id p :
  step s s' -> record s id = Some p ->
  exists p', record s' id = Some p' /\ (p' = p \/ change (clock s') p p').
Proof.
  intros [i s0 s1 [|q q' t Hq Ht Hc]|s0] Hp; eauto.
  rewrite record_at_time, clock_at_time.
  destruct (decide (i = id)) as [->|Hne].
  - rewrite record_put_eq. exists q'. split; [done|]. right. congruence.
  - rewrite record_put_ne by done. eauto.
Qed.

Lemma step_record_back s s' id :
  step s s' -> is_Some (record s' id) -> is_Some (record s id).
Proof.
  intros [i s0 s1 [|q q' t Hq Ht Hc]|s0]; auto.
  rewrite record_at_time. destruct (decide (i = id)) as [->|Hne].
  - by rewrite Hq.
  - by rewrite record_put_ne.
Qed.

Lemma step_nextProcessID s s' :
  step s s' -> nextProcessID (plm s') = nextProcessID (plm s).
Proof. by intros [i s0 s1 [|q q' t Hq Ht Hc]|s0]. Qed.

Lemma step_consistent s s' : step s s' -> consistent s -> consistent s'.
Proof.
  intros [i s0 s1 [|q q' t Hq Ht Hc]|s0] Hs; auto.
  intros id p. rewrite record_at_time, clock_at_time.
  destruct (decide (i = id)) as [->|Hne].
  - rewrite record_put_eq. intros [= <-].
    destruct (Hs _ _ Hq) as (HI & Hso & Hst).
    split; [by rewrite (change_ID _ _ _ Hc)|].
    split; [by eapply change_sound|].
    eapply change_StartTime; [done|lia].
  - rewrite record_put_ne by done. intros Hp.
    destruct (Hs _ _ Hp) as (HI & Hso & Hst). repeat split; auto; lia.
Qed.

Lemma step_ids_fresh s s' : step s s' -> ids_fresh s -> ids_fresh s'.
Proof.
  intros Hst [H1 H2]. split; rewrite (step_nextProcessID _ _ Hst); [done|].
  intros id Hid. apply H2. by eapply step_record_back.
Qed.

Lemma steps_consistent s s' : rtc step s s' -> consistent s -> consistent s'.
Proof. induction 1; eauto using step_consistent. Qed.

Lemma steps_ids_fresh s s' : rtc step s s' -> ids_fresh s -> ids_fresh s'.
Proof. induction 1; eauto using step_ids_fresh. Qed.

Lemma steps_nextProcessID s s' :
  rtc step s s' -> nextProcessID (plm s') = nextProcessID (plm s).
Proof.
  induction 1 as [|s0 s1 s2 H _ IH]; [done|].
  by rewrite IH, (step_nextProcessID _ _ H).
Qed.

(** Once set, the pid field is never zero again. *)
Lemma steps_PID_kept s s' id p :
  rtc step s s' -> record s id = Some p -> PID p <> 0 ->
  exists p', record s' id = Some p' /\ PID p' <> 0.
Proof.
  intros Hs. revert p. induction Hs as [s|s s1 s2 H1 _ IH]; intros p Hp HP.
  - eauto.
  - destruct (step_record _ _ _ _ H1 Hp) as (q & Hq & [->|Hc]); [eauto|].
    eapply IH; [done|]. by eapply change_PID_kept.
Qed.

(** ** [CreateProcess] *)

(** The record [CreateProcess] builds. *)
Lemma CreateProcess_eq name command dt s :
  let t := clock s + Z.of_N dt in
  let p := mkProcess (nextProcessID (plm s)) 0 name command StateCreated t None
             0 3 DefaultHealthChecker [] ∅ "/tmp" "" None in
  CreateProcess name command dt s =
  Ret p (mkSys (mkManager (<[nextProcessID (plm s) := p]> (processes (plm s)))
                  (int_incr (nextProcessID (plm s))) (shutdownClosed (plm s)))
           t)
    [].
Proof. reflexivity. Qed.

Lemma CreateProcess_consistent name command dt s :
  consistent s -> consistent (final (CreateProcess name command dt s)).
Proof.
  intros Hs id p. rewrite CreateProcess_eq. unfold record. simpl.
  destruct (decide (nextProcessID (plm s) = id)) as [->|Hne].
  - rewrite lookup_insert_eq. intros [= <-]. simpl.
    split; [done|]. split; [left; by repeat split | lia].
  - rewrite lookup_insert_ne by done. intros Hp.
    destruct (Hs _ _ Hp) as (HI & Hso & Hst). repeat split; auto; lia.
Qed.

Lemma CreateProcess_ids_fresh name command dt s :
  nextProcessID (plm s) < max_int ->
  ids_fresh s -> ids_fresh (final (CreateProcess name command dt s)).
Proof.
  intros Hmax [H1 H2]. rewrite CreateProcess_eq. unfold ids_fresh, record.
  simpl. rewrite int_incr_eq by (unfold min_int; lia). split; [lia|].
  intros id. destruct (decide (nextProcessID (plm s) = id)) as [<-|Hne].
  - intros _. lia.
  - rewrite lookup_insert_ne by done. intros Hid. apply H2 in Hid. lia.
Qed.

(** ** Runs *)

Lemma run_cons_inv c cs s s' t :
  run (c :: cs) s = Ret tt s' t ->
  exists s1 t1 t2,
    exec c s = Ret tt s1 t1 /\ run cs s1 = Ret tt s' t2 /\ t = t1 ++ t2.
Proof.
  cbn [run]. unfold bind. destruct (exec c s) as [[] s1 t1|]; [|done].
  destruct (run cs s1) as [[] s2 t2|] eqn:Hr; [|done].
  intros [= <- <-]. by eexists _, _, _.
Qed.

Lemma is_create_dec c :
  {exists name command dt, c = CallCreate name command dt} +
  {forall name command dt, c <> CallCreate name command dt}.
Proof. destruct c; (by right) || (left; by eexists _, _, _). Qed.

Lemma exec_consistent c s : consistent s -> consistent (final (exec c s)).
Proof.
  destruct (is_create_dec c) as [(name & command & dt & ->)|Hc].
  - cbn [exec]. rewrite final_discard. apply CreateProcess_consistent.
  - apply steps_consistent. by apply exec_steps.
Qed.

Lemma run_consistent cs s s' t :
  run cs s = Ret tt s' t -> consistent s -> consistent s'.
Proof.
  revert s t. induction cs as [|c cs IH]; intros s t.
  - by intros [= <- <-].
  - intros (s1 & t1 & t2 & He & Hr & _)%run_cons_inv Hs.
    eapply IH; [done|]. pose proof (exec_consistent c s Hs) as H.
    by rewrite He in H.
Qed.

Lemma boot_consistent t0 : consistent (boot t0).
Proof. intros id p. unfold record, boot. simpl. by rewrite lookup_empty. Qed.

Lemma reachable_consistent s : reachable s -> consistent s.
Proof.
  intros (t0 & cs & t & H). eapply run_consistent; [done|].
  apply boot_consistent.
Qed.

Lemma boot_ids_fresh t0 : ids_fresh (boot t0).
Proof.
  split; [done|]. intros id [p Hp]. unfold record, boot in Hp. simpl in Hp.
  by rewrite lookup_empty in Hp.
Qed.

(** A call gives out at most one id, and keeps the ids fresh as long as the
    counter has room. *)
Lemma exec_ids_fresh c s :
  ids_fresh s -> nextProcessID (plm s) < max_int ->
  ids_fresh (final (exec c s)) /\
  nextProcessID (plm (final (exec c s))) <= nextProcessID (plm s) + 1.
Proof.
  intros Hf Hn.
  destruct (is_create_dec c) as [(name & command & dt & ->)|Hc].
  - cbn [exec]. rewrite final_discard.
    split; [by apply CreateProcess_ids_fresh|].
    rewrite CreateProcess_eq. simpl. destruct Hf as [H1 _].
    rewrite int_incr_eq by (unfold min_int; lia). lia.
  - pose proof (exec_steps c s Hc) as Hs.
    split; [by eapply steps_ids_fresh|].
    rewrite (steps_nextProcessID _ _ Hs). lia.
Qed.

Lemma run_ids_fresh cs : forall s s' t,
  run cs s = Ret tt s' t ->
  ids_fresh s -> nextProcessID (plm s) + Z.of_nat (length cs) <= max_int ->
  ids_fresh s'.
Proof.
  induction cs as [|c cs IH]; intros s s' t.
  - by intros [= <- <-].
  - intros (s1 & t1 & t2 & He & Hr & _)%run_cons_inv Hf Hn.
    cbn [length] in Hn.
    destruct (exec_ids_fresh c s Hf ltac:(lia)) as [Hf1 Hn1].
    rewrite He in Hf1, Hn1. simpl in Hf1, Hn1.
    eapply IH; [done | done | lia].
Qed.

(** ** The demo run *)

Lemma demo_started_run :
  run demo_calls (boot 100) =
  Ret tt demo_started
    [EvState 1 StateStarting; EvLaunch 1 sleeper "/tmp" (Some 4242%positive);
     EvState 1 StateRunning; EvSpawnMonitor 1].
Proof. vm_compute. reflexivity. Qed.

Lemma demo_started_record : record demo_started 1 = Some demo_record.
Proof. vm_compute. reflexivity. Qed.

Lemma demo_record_has_command : Command demo_record <> [].
Proof. discriminate. Qed.

Lemma demo_started_reachable : reachable demo_started.
Proof. exists 100, demo_calls. eexists. apply demo_started_run. Qed.

Lemma demo_started_ids_fresh : ids_fresh demo_started.
Proof.
  eapply (run_ids_fresh demo_calls (boot 100)).
  - apply demo_started_run.
  - apply boot_ids_fresh.
  - vm_compute. discriminate.
Qed.

Lemma demo_started_counter : min_int <= nextProcessID (plm demo_started) < max_int.
Proof. vm_compute. split; [discriminate | reflexivity]. Qed.

Lemma demo_stopped_run :
  run demo_stop_calls (boot 100) =
  Ret tt demo_stopped
    [EvState 1 StateStarting; EvLaunch 1 sleeper "/tmp" (Some 4242%positive);
     EvState 1 StateRunning; EvSpawnMonitor 1;
     EvState 1 StateStopping; EvSigterm 4242%positive true;
     EvExited 4242%positive; EvState 1 StateStopped].
Proof. vm_compute. reflexivity. Qed.

Lemma demo_stopped_reachable : reachable demo_stopped.
Proof. exists 100, demo_stop_calls. eexists. apply demo_stopped_run. Qed.

Lemma demo_stopped_lookup : record demo_stopped 1 = Some demo_stopped_record.
Proof. vm_compute. reflexivity. Qed.

Lemma demo_dependent_run :
  run demo_dependent_calls (boot 100) = Ret tt demo_dependent [].
Proof. vm_compute. reflexivity. Qed.

Lemma demo_dependent_web : record demo_dependent 2 = Some demo_web.
Proof. vm_compute. reflexivity. Qed.

Lemma demo_dependent_db : record demo_dependent 1 = Some demo_db.
Proof. vm_compute. reflexivity. Qed.

(** * The claims *)

(** ** Creation *)

(** C10. Every record returned by [CreateProcess] has a maximum restart count
    of 3, a restart counter of 0, the working directory "/tmp", an empty
    environment overlay, no dependencies and the default health checker; the
    first id given out is 1, and the next [CreateProcess], whatever is done
    to the records in between, returns the previous id plus one (the counter
    being a Go [int] that has not reached its largest value). *)
Theorem CreateProcess_defaults name command dt s :
  min_int <= nextProcessID (plm s) < max_int ->
  exists p s',
    CreateProcess name command dt s = Ret p s' [] /\
    MaxRestarts p = 3 /\ RestartCount p = 0 /\ WorkDir p = "/tmp" /\
    Environment p = ∅ /\ Dependencies p = [] /\
    HealthCheck p = DefaultHealthChecker /\
    ID p = nextProcessID (plm s) /\
    (forall s'' name' command' dt',
        rtc step s' s'' ->
        ID <$> returned (CreateProcess name' command' dt' s'') = Some (ID p + 1)) /\
    (forall t0, ID <$> returned (CreateProcess name command dt (boot t0)) = Some 1).
Proof.
  intros Hr. eexists _, _. split; [apply CreateProcess_eq|].
  repeat split.
  intros s'' name' command' dt' Hs. rewrite CreateProcess_eq.
  cbn [returned fmap option_fmap option_map ID].
  rewrite (steps_nextProcessID _ _ Hs). cbn [plm nextProcessID].
  by rewrite int_incr_eq by lia.
Qed.

Lemma CreateProcess_defaults_witness :
  min_int <= nextProcessID (plm demo_started) < max_int /\
  exists p s',
    CreateProcess "ping" ["ping"; "localhost"] 3 demo_started = Ret p s' [] /\
    MaxRestarts p = 3 /\ RestartCount p = 0 /\ WorkDir p = "/tmp" /\
    Environment p = ∅ /\ Dependencies p = [] /\
    HealthCheck p = DefaultHealthChecker /\
    ID p = 2.
Proof.
  split; [exact demo_started_counter|].
  destruct (CreateProcess_defaults "ping" ["ping"; "localhost"] 3
              demo_started demo_started_counter)
    as (p & s' & H1 & H2 & H3 & H4 & H5 & H6 & H7 & H8 & _).
  exists p, s'. repeat split; assumption.
Defined.

(** C6, as the program has it. [CreateProcess] never fails, and does not look
    at the command: for every command, empty or not, it builds a record in
    state Created, stores it under the id it returns, an id no record was
    stored under before, and leaves the other records alone. *)
Theorem CreateProcess_never_fails name command dt s :
  ids_fresh s ->
  exists p s',
    CreateProcess name command dt s = Ret p s' [] /\
    State p = StateCreated /\ Name p = name /\ Command p = command /\
    record s (ID p) = None /\
    record s' (ID p) = Some p /\
    (forall id, id <> ID p -> record s' id = record s id).
Proof.
  intros [H1 H2]. eexists _, _. split; [apply CreateProcess_eq|].
  cbn [State Name Command ID]. repeat split.
  - destruct (record s (nextProcessID (plm s))) eqn:E; [|done].
    assert (is_Some (record s (nextProcessID (plm s)))) as Hs by eauto.
    apply H2 in Hs. lia.
  - unfold record. cbn [plm processes]. apply lookup_insert_eq.
  - intros id Hne. unfold record. cbn [plm processes].
    by apply lookup_insert_ne.
Qed.

Lemma CreateProcess_never_fails_witness :
  ids_fresh demo_started /\
  exists p s',
    CreateProcess "none" [] 0 demo_started = Ret p s' [] /\
    State p = StateCreated /\ Command p = [] /\
    record demo_started (ID p) = None /\ record s' (ID p) = Some p.
Proof.
  split; [exact demo_started_ids_fresh|].
  destruct (CreateProcess_never_fails "none" [] 0 demo_started
              demo_started_ids_fresh)
    as (p & s' & H1 & H2 & _ & H4 & H5 & H6 & _).
  exists p, s'. repeat split; assumption.
Defined.

(** C6, as the specification has it, fails: an empty command is taken like
    any other. *)
Lemma create_rejects_empty_command_fails :
  returned (CreateProcess "none" [] 0 (boot 100)) = Some demo_empty /\
  State demo_empty = StateCreated /\ Command demo_empty = [] /\
  record (final (CreateProcess "none" [] 0 (boot 100))) 1 = Some demo_empty /\
  ~ create_rejects_empty_command.
Proof.
  split; [reflexivity|]. split; [reflexivity|]. split; [reflexivity|].
  split; [vm_compute; reflexivity|].
  intros H. specialize (H "none" 0%N (boot 100)). discriminate H.
Qed.

(** ** Starting *)

(** The loop of [checkDependencies] says yes exactly when every dependency
    is a record of the registry in state Running. *)
Lemma checkDependencies_loop_true procs deps :
  checkDependencies_loop procs deps = true <->
  Forall (fun depID => exists dep,
            procs !! depID = Some dep /\ State dep = StateRunning) deps.
Proof.
  induction deps as [|depID rest IH]; simpl.
  - split; [constructor | done].
  - destruct (procs !! depID) as [dep|] eqn:E.
    + destruct (decide (State dep = StateRunning)) as [Hr|Hr].
      * rewrite IH. split; [constructor; eauto | by inversion 1].
      * split; [done|]. inversion 1 as [|? ? (d & Hd & Hs)]. congruence.
    + split; [done|]. inversion 1 as [|? ? (d & Hd & Hs)]. congruence.
Qed.

(** C7. When some dependency of a record is missing from the registry, or is
    there but not in state Running, [StartProcess] on the record returns the
    dependency error, launches nothing, and leaves the record, and the whole
    program, as it was. *)
Theorem StartProcess_unsatisfied_dependency s id p env depID :
  record s id = Some p ->
  In depID (Dependencies p) ->
  (record s depID = None \/
   exists dep, record s depID = Some dep /\ State dep <> StateRunning) ->
  StartProcess id env s = Ret (Some (ErrDependencies id)) s [].
Proof.
  intros Hp Hin Hdep. eapply StartProcess_blocked; [done|].
  apply not_true_is_false. rewrite checkDependencies_loop_true.
  rewrite Forall_forall. intros Hall.
  destruct (Hall depID) as (dep & Hd & Hs); [by apply list_elem_of_In|].
  unfold record in Hdep. destruct Hdep as [Hn|(dep' & Hd' & Hs')]; congruence.
Qed.

Lemma StartProcess_unsatisfied_dependency_witness :
  (record demo_dependent 2 = Some demo_web /\ In 1 (Dependencies demo_web) /\
   record demo_dependent 1 = Some demo_db /\ State demo_db <> StateRunning) /\
  StartProcess 2 (mkStartEnv (Some 77%positive) 1) demo_dependent =
  Ret (Some (ErrDependencies 2)) demo_dependent [].
Proof.
  assert (Hin : In 1 (Dependencies demo_web)) by (left; reflexivity).
  assert (Hst : State demo_db <> StateRunning) by discriminate.
  split; [by repeat split; try apply demo_dependent_web;
             try apply demo_dependent_db|].
  exact (StartProcess_unsatisfied_dependency demo_dependent 2 demo_web
           (mkStartEnv (Some 77%positive) 1) 1 demo_dependent_web Hin
           (or_intror (ex_intro _ demo_db (conj demo_dependent_db Hst)))).
Defined.

(** C2, as the program has it. [StartProcess] does not look at the state of
    the record. For a record of the registry in any state whatever, Running,
    Starting, Stopping, Stopped and Restarting among them, whose dependencies
    are all Running and whose command is not empty, it calls the launcher.
    When the launch succeeds it returns no error, the record holds the new
    handle and pid and is Running, and a monitor is spawned; when the launch
    fails it returns the launch error and the record is Failed. *)
Theorem StartProcess_ignores_state s id p env :
  record s id = Some p ->
  checkDependencies_loop (processes (plm s)) (Dependencies p) = true ->
  Command p <> [] ->
  match launch env with
  | Some pid =>
      let t := clock s + Z.of_N (start_elapsed env) in
      StartProcess id env s =
      Ret None (at_time t (put id (launched p pid t) s))
        [EvState id StateStarting;
         EvLaunch id (Command p) (WorkDir p) (Some pid);
         EvState id StateRunning;
         EvSpawnMonitor id]
  | None =>
      StartProcess id env s =
      Ret (Some (ErrStartFailed id)) (put id (set_State StateFailed p) s)
        [EvState id StateStarting;
         EvLaunch id (Command p) (WorkDir p) None;
         EvState id StateFailed]
  end.
Proof.
  intros Hp Hd Hc. destruct (launch env) as [pid|] eqn:Hl.
  - by apply StartProcess_launched.
  - by apply StartProcess_launch_failed.
Qed.

Lemma StartProcess_ignores_state_witness :
  (record demo_started 1 = Some demo_record /\
   State demo_record = StateRunning) /\
  StartProcess 1 (mkStartEnv (Some 5000%positive) 2) demo_started =
  Ret None (at_time 107 (put 1 (launched demo_record 5000 107) demo_started))
    [EvState 1 StateStarting; EvLaunch 1 sleeper "/tmp" (Some 5000%positive);
     EvState 1 StateRunning; EvSpawnMonitor 1].
Proof.
  split; [split; [exact demo_started_record | reflexivity]|].
  exact (StartProcess_ignores_state demo_started 1 demo_record
           (mkStartEnv (Some 5000%positive) 2)
           demo_started_record eq_refl demo_record_has_command).
Defined.

(** C2, as the specification has it, fails: a Running record is launched a
    second time and gets a second monitor. *)
Lemma start_rejects_unless_startable_fails :
  (record demo_started 1 = Some demo_record /\
   State demo_record = StateRunning) /\
  StartProcess 1 (mkStartEnv (Some 5000%positive) 2) demo_started =
  Ret None (at_time 107 (put 1 (launched demo_record 5000 107) demo_started))
    [EvState 1 StateStarting; EvLaunch 1 sleeper "/tmp" (Some 5000%positive);
     EvState 1 StateRunning; EvSpawnMonitor 1] /\
  ~ start_rejects_unless_startable.
Proof.
  assert (Hstart :
    StartProcess 1 (mkStartEnv (Some 5000%positive) 2) demo_started =
    Ret None (at_time 107 (put 1 (launched demo_record 5000 107) demo_started))
      [EvState 1 StateStarting; EvLaunch 1 sleeper "/tmp" (Some 5000%positive);
       EvState 1 StateRunning; EvSpawnMonitor 1]).
  { apply (StartProcess_launched 1 (mkStartEnv (Some 5000%positive) 2)
             demo_started demo_record demo_started_record eq_refl
             demo_record_has_command 5000%positive eq_refl). }
  split; [split; [exact demo_started_record | reflexivity]|].
  split; [exact Hstart|]. intros H.
  destruct (H demo_started 1 demo_record (mkStartEnv (Some 5000%positive) 2))
    as [err Herr]; [apply demo_started_record | discriminate | discriminate |].
  rewrite Hstart in Herr. discriminate Herr.
Qed.

(** ** Stopping *)

(** The three ways [StopProcess] leaves the program. *)
Lemma StopProcess_final id env s p :
  record s id = Some p ->
  final (StopProcess id env s) = s \/
  final (StopProcess id env s) = put id (set_State StateStopping p) s \/
  exists t, clock s <= t /\
    final (StopProcess id env s) = at_time t (put id (stopped p t) s).
Proof.
  intros Hp.
  destruct (decide (State p = StateRunning)) as [Hr|Hr];
    [| erewrite StopProcess_not_running by done; by left].
  destruct (cmd p) as [c|] eqn:Hc.
  2: { erewrite StopProcess_no_handle by (done || by left).
       right; right. eexists. split; [|done]. lia. }
  destruct (Process c) as [pid|] eqn:Hpid.
  2: { erewrite StopProcess_no_handle by (done || right; by exists c).
       right; right. eexists. split; [|done]. lia. }
  destruct (sigterm_ok env) eqn:Hs.
  2: { erewrite StopProcess_sigterm_failed by done. right; by left. }
  destruct (exits_in_grace env) eqn:Hg.
  - erewrite StopProcess_graceful by done.
    right; right. eexists. split; [|done]. lia.
  - erewrite StopProcess_forced by done.
    right; right. eexists. split; [|done]. lia.
Qed.

(** C4, as the program has it. When SIGTERM cannot be delivered to the
    process of a Running record, [StopProcess] returns the signal error at
    once: it neither waits nor kills, and the record stays in Stopping. *)
Theorem StopProcess_sigterm_failure_returns s id p c pid env :
  record s id = Some p -> State p = StateRunning ->
  cmd p = Some c -> Process c = Some pid ->
  sigterm_ok env = false ->
  exists s',
    StopProcess id env s =
    Ret (Some (ErrSigterm id)) s' [EvState id StateStopping; EvSigterm pid false] /\
    record s' id = Some (set_State StateStopping p) /\
    clock s' = clock s.
Proof.
  intros Hp Hr Hc Hpid Hs. eexists. split.
  - by eapply StopProcess_sigterm_failed.
  - split; [apply record_put_eq | apply clock_put].
Qed.

Lemma StopProcess_sigterm_failure_returns_witness :
  (record demo_started 1 = Some demo_record /\
   State demo_record = StateRunning /\
   cmd demo_record = Some (mkCmd sleeper "/tmp" (Some 4242%positive))) /\
  exists s',
    StopProcess 1 (mkStopEnv false true 0) demo_started =
    Ret (Some (ErrSigterm 1)) s'
      [EvState 1 StateStopping; EvSigterm 4242%positive false] /\
    record s' 1 = Some (set_State StateStopping demo_record) /\
    clock s' = clock demo_started.
Proof.
  split; [split; [apply demo_started_record | split; reflexivity]|].
  exact (StopProcess_sigterm_failure_returns demo_started 1 demo_record
           (mkCmd sleeper "/tmp" (Some 4242%positive)) 4242%positive
           (mkStopEnv false true 0)
           demo_started_record eq_refl eq_refl eq_refl eq_refl).
Defined.

(** C4, as the specification has it, fails: after a failed SIGTERM nothing is
    killed and the record is not Stopped but Stopping. *)
Lemma sigterm_failure_still_kills_fails :
  (record demo_started 1 = Some demo_record /\
   State demo_record = StateRunning) /\
  StopProcess 1 (mkStopEnv false true 0) demo_started =
  Ret (Some (ErrSigterm 1)) (put 1 (set_State StateStopping demo_record) demo_started)
    [EvState 1 StateStopping; EvSigterm 4242%positive false] /\
  ~ sigterm_failure_still_kills.
Proof.
  assert (Hstop :
    StopProcess 1 (mkStopEnv false true 0) demo_started =
    Ret (Some (ErrSigterm 1))
      (put 1 (set_State StateStopping demo_record) demo_started)
      [EvState 1 StateStopping; EvSigterm 4242%positive false]).
  { apply (StopProcess_sigterm_failed 1 (mkStopEnv false true 0) demo_started
             demo_record demo_started_record eq_refl
             (mkCmd sleeper "/tmp" (Some 4242%positive)) 4242%positive
             eq_refl eq_refl eq_refl). }
  split; [split; [exact demo_started_record | reflexivity]|].
  split; [exact Hstop|]. intros H.
  destruct (H demo_started 1 demo_record
              (mkCmd sleeper "/tmp" (Some 4242%positive)) 4242%positive
              (mkStopEnv false true 0))
    as (s' & t & Hs' & Hkill & _);
    [apply demo_started_record | reflexivity .. |].
  rewrite Hstop in Hs'. injection Hs' as <- <-.
  destruct Hkill as [Hk|[Hk|[]]]; discriminate Hk.
Qed.

(** C9. For a Running record of a reachable program whose process takes the
    SIGTERM, [StopProcess] returns no error with the record Stopped and its
    end time at or after its start time, whether the process leaves within
    the grace period or is killed after it; the wait on the process returns
    before the state is set to Stopped, which is the last thing done and is
    done once. *)
Theorem StopProcess_reaches_stopped s id p env :
  reachable s ->
  record s id = Some p -> State p = StateRunning ->
  sigterm_ok env = true ->
  exists pid s' p' t_end,
    PID p = Z.pos pid /\
    let before :=
      [EvState id StateStopping; EvSigterm pid true] ++
      (if exits_in_grace env then [] else [EvGraceTimeout pid; EvKill pid]) in
    StopProcess id env s =
    Ret None s' (before ++ [EvExited pid; EvState id StateStopped]) /\
    ~ In (EvState id StateStopped) before /\
    record s' id = Some p' /\
    State p' = StateStopped /\
    EndTime p' = Some t_end /\
    StartTime p' <= t_end.
Proof.
  intros Hreach Hp Hr Hs.
  destruct (reachable_consistent s Hreach id p Hp) as (_ & Hsound & Hst).
  destruct Hsound as [(_ & _ & Hnr & _)|(c & pid & Hc & Hpid & HPID)]; [done|].
  exists pid. destruct (exits_in_grace env) eqn:Hg.
  - eexists _, _, _. split; [done|]. cbn zeta.
    split; [by eapply StopProcess_graceful|].
    split; [simpl; intros [H|[H|[]]]; discriminate H|].
    split; [rewrite record_at_time; apply record_put_eq|].
    split; [done|]. split; [done|]. simpl. lia.
  - eexists _, _, _. split; [done|]. cbn zeta.
    split; [by eapply StopProcess_forced|].
    split; [simpl; intros [H|[H|[H|[H|[]]]]]; discriminate H|].
    split; [rewrite record_at_time; apply record_put_eq|].
    split; [done|]. split; [done|]. simpl. lia.
Qed.

Lemma StopProcess_reaches_stopped_witness :
  (reachable demo_started /\ record demo_started 1 = Some demo_record /\
   State demo_record = StateRunning) /\
  exists s' p' t_end,
    StopProcess 1 (mkStopEnv true false 3) demo_started =
    Ret None s'
      [EvState 1 StateStopping; EvSigterm 4242%positive true;
       EvGraceTimeout 4242%positive; EvKill 4242%positive;
       EvExited 4242%positive; EvState 1 StateStopped] /\
    record s' 1 = Some p' /\ State p' = StateStopped /\
    EndTime p' = Some t_end /\ StartTime p' <= t_end.
Proof.
  split; [split; [apply demo_started_reachable |
                  split; [apply demo_started_record | reflexivity]]|].
  destruct (StopProcess_reaches_stopped demo_started 1 demo_record
              (mkStopEnv true false 3) demo_started_reachable
              demo_started_record eq_refl eq_refl)
    as (pid & s' & p' & t_end & Hpid & Hstop & _ & Hrec & Hst & He & Hle).
  injection Hpid as <-.
  exists s', p', t_end. repeat split; assumption.
Defined.

(** ** The pid field *)

(** C1, as the program has it. Between two operations, the pid field of a
    record is non-zero exactly when the record has been launched with success
    at least once, that is when it holds a process handle; a Running or
    Stopping record has a non-zero pid; [StopProcess] does not write the
    field, so that a launched record that has been stopped keeps the pid of
    the process that is gone; and no operation on the records of the registry
    brings a pid back to zero. *)
Theorem PID_follows_launch s id p :
  reachable s -> record s id = Some p ->
  (PID p <> 0 <-> cmd p <> None) /\
  (State p = StateRunning \/ State p = StateStopping -> PID p <> 0) /\
  (forall env, exists p',
      record (final (StopProcess id env s)) id = Some p' /\ PID p' = PID p) /\
  (forall c,
      (forall name command dt, c <> CallCreate name command dt) ->
      PID p <> 0 ->
      exists p', record (final (exec c s)) id = Some p' /\ PID p' <> 0).
Proof.
  intros Hreach Hp.
  destruct (reachable_consistent s Hreach id p Hp) as (_ & Hsound & _).
  split_and!.
  - destruct Hsound as [(Hc & HP & _)|(c & pid & Hc & _ & HP)];
      rewrite HP, Hc; split; intros; (done || lia).
  - destruct Hsound as [(_ & _ & Hr & Hs)|(c & pid & _ & _ & HP)];
      [intros [|]; done | intros _; lia].
  - intros env.
    destruct (StopProcess_final id env s p Hp) as [->|[->|(t & _ & ->)]].
    + eauto.
    + rewrite record_put_eq. eauto.
    + rewrite record_at_time, record_put_eq. eauto.
  - intros c Hc HP. eapply steps_PID_kept; [by apply exec_steps | done | done].
Qed.

Lemma PID_follows_launch_witness :
  (reachable demo_started /\ record demo_started 1 = Some demo_record) /\
  (PID demo_record <> 0 <-> cmd demo_record <> None) /\
  (exists p',
      record (final (StopProcess 1 (mkStopEnv true true 7) demo_started)) 1
        = Some p' /\
      PID p' = 4242).
Proof.
  split; [split; [apply demo_started_reachable | apply demo_started_record]|].
  destruct (PID_follows_launch demo_started 1 demo_record
              demo_started_reachable demo_started_record) as (H1 & _ & H3 & _).
  split; [exact H1 | exact (H3 (mkStopEnv true true 7))].
Defined.

(** C1, as the specification has it, fails: after [StopProcess] has returned
    the record is Stopped and its pid is still that of the stopped process. *)
Lemma pid_iff_live_fails :
  reachable demo_stopped /\
  record demo_stopped 1 = Some demo_stopped_record /\
  State demo_stopped_record = StateStopped /\
  PID demo_stopped_record = 4242 /\
  ~ pid_iff_live demo_stopped /\
  ~ (forall s, reachable s -> pid_iff_live s).
Proof.
  assert (Hno : ~ pid_iff_live demo_stopped).
  { intros H. destruct (H 1 demo_stopped_record demo_stopped_lookup) as [Hl _].
    destruct Hl as [Hl|[Hl|Hl]]; discriminate. }
  split; [apply demo_stopped_reachable|]. split; [apply demo_stopped_lookup|].
  split; [reflexivity|]. split; [reflexivity|].
  split; [exact Hno|]. intros H. apply Hno, H, demo_stopped_reachable.
Qed.

(** ** Shutting down *)

Lemma step_shutdownClosed s s' :
  step s s' -> shutdownClosed (plm s) = true -> shutdownClosed (plm s') = true.
Proof. by intros [i s0 s1 [|q q' t Hq Ht Hc]|s0]. Qed.

Lemma steps_shutdownClosed s s' :
  rtc step s s' -> shutdownClosed (plm s) = true ->
  shutdownClosed (plm s') = true.
Proof. induction 1; eauto using step_shutdownClosed. Qed.

Lemma ShutdownAll_closes env s :
  shutdownClosed (plm (final (ShutdownAll env s))) = true.
Proof.
  unfold ShutdownAll, bind, close_shutdownChannel, get_plm.
  destruct (shutdownClosed (plm s)) eqn:E; [done|]. simpl.
  match goal with |- context [stop_each ?l env ?s1] =>
    pose proof (stop_each_steps l env s1) as H;
    destruct (stop_each l env s1) end;
    apply steps_shutdownClosed in H; done.
Qed.

(** C3. The program does not do what the claim asks: whatever the first
    [ShutdownAll] did, a second one closes the channel that is closed
    already, and the Go runtime panics before a single record is looked at. *)
Theorem ShutdownAll_twice_panics env env' s :
  ShutdownAll env' (final (ShutdownAll env s)) =
  Panic CloseOfClosedChannel (final (ShutdownAll env s)) [].
Proof.
  pose proof (ShutdownAll_closes env s) as H.
  unfold ShutdownAll at 1. unfold bind, close_shutdownChannel. by rewrite H.
Qed.

(** The demo, shut down once and then once more. *)
Example ShutdownAll_demo :
  let env := fun _ : Z => mkStopEnv true true 1 in
  let first := ShutdownAll env demo_started in
  returned first = Some tt /\
  State <$> record (final first) 1 = Some StateStopped /\
  returned (ShutdownAll env (final first)) = None.
Proof. vm_compute. repeat split. Qed.

(** ** Restarting *)

Lemma StartProcess_trace_no_stop id env s :
  Forall (fun e => stop_event e = false) (trace (StartProcess id env s)).
Proof.
  destruct (record s id) as [p|] eqn:Hp;
    [| rewrite StartProcess_unknown by done; constructor].
  destruct (checkDependencies_loop (processes (plm s)) (Dependencies p)) eqn:Hd;
    [| erewrite StartProcess_blocked by done; constructor].
  destruct (decide (Command p = [])) as [Hc|Hc].
  { erewrite StartProcess_no_command by done. by repeat constructor. }
  destruct (launch env) as [pid|] eqn:Hl.
  - erewrite StartProcess_launched by done. by repeat constructor.
  - erewrite StartProcess_launch_failed by done. by repeat constructor.
Qed.

Lemma trace_after_events {A} t (r : Res A) :
  trace (after_events t r) = t ++ trace r.
Proof. by destruct r. Qed.

(** C5. The program does not do what the claim asks: [RestartProcess] never
    runs the stop algorithm, whatever the state of the record. It writes
    Restarting into the state before it asks whether the state is Running or
    Starting, so no signal is sent, nothing is waited for, and the record
    passes through neither Stopping nor Stopped. *)
Theorem RestartProcess_never_stops id senv env s :
  Forall (fun e => stop_event e = false)
         (trace (RestartProcess id senv env s)).
Proof.
  destruct (record s id) as [p|] eqn:Hp;
    [| rewrite RestartProcess_unknown by done; constructor].
  destruct (decide (RestartCount p < MaxRestarts p)) as [Hr|Hr];
    [| erewrite RestartProcess_refused by (done || lia); constructor].
  erewrite RestartProcess_granted by done. rewrite trace_after_events.
  apply Forall_app. split; [by repeat constructor|].
  apply StartProcess_trace_no_stop.
Qed.

(** The Running record of the demo, restarted: process 4242 is left alone
    and forgotten, process 5000 takes its place. *)
Example RestartProcess_demo :
  let r := RestartProcess 1 (mkStopEnv true true 1)
             (mkStartEnv (Some 5000%positive) 2) demo_started in
  trace r =
    [EvState 1 StateRestarting; EvSleep 2000; EvState 1 StateStarting;
     EvLaunch 1 sleeper "/tmp" (Some 5000%positive);
     EvState 1 StateRunning; EvSpawnMonitor 1] /\
  PID <$> record (final r) 1 = Some 5000 /\
  RestartCount <$> record (final r) 1 = Some 1.
Proof. vm_compute. repeat split. Qed.

Lemma launches_app id t1 t2 :
  launches id (t1 ++ t2) = (launches id t1 + launches id t2)%nat.
Proof. unfold launches. by rewrite List.filter_app, length_app. Qed.

Lemma trace_discard {A} (m : M A) s : trace (discard m s) = trace (m s).
Proof. unfold discard, bind, ret. destruct (m s); simpl; by rewrite ?app_nil_r. Qed.

(** [StartProcess] calls the launcher at most once, and for its own record. *)
Lemma StartProcess_launches id env s k :
  (launches k (trace (StartProcess id env s)) <= 1)%nat /\
  (k <> id -> launches k (trace (StartProcess id env s)) = 0%nat).
Proof.
  unfold launches.
  destruct (record s id) as [p|] eqn:Hp;
    [| rewrite StartProcess_unknown by done; simpl; split; [lia|done]].
  destruct (checkDependencies_loop (processes (plm s)) (Dependencies p)) eqn:Hd;
    [| erewrite StartProcess_blocked by done; simpl; split; [lia|done]].
  destruct (decide (Command p = [])) as [Hc|Hc].
  { erewrite StartProcess_no_command by done. simpl. split; [lia|done]. }
  destruct (launch env) as [pid|] eqn:Hl.
  - erewrite StartProcess_launched by done. simpl.
    case_bool_decide; simpl; split; (lia || done || congruence).
  - erewrite StartProcess_launch_failed by done. simpl.
    case_bool_decide; simpl; split; (lia || done || congruence).
Qed.

(** [StartProcess] leaves the restart counter alone. *)
Lemma StartProcess_RestartCount id env s q :
  record s id = Some q ->
  exists q', record (final (StartProcess id env s)) id = Some q' /\
             RestartCount q' = RestartCount q.
Proof.
  intros Hp.
  destruct (checkDependencies_loop (processes (plm s)) (Dependencies q)) eqn:Hd;
    [| erewrite StartProcess_blocked by done; eauto].
  destruct (decide (Command q = [])) as [Hc|Hc].
  { erewrite StartProcess_no_command by done. simpl.
    rewrite record_put_eq. eauto. }
  destruct (launch env) as [pid|] eqn:Hl.
  - erewrite StartProcess_launched by done. simpl.
    rewrite record_at_time, record_put_eq. eauto.
  - erewrite StartProcess_launch_failed by done. simpl.
    rewrite record_put_eq. eauto.
Qed.

Lemma moves_record_ne i s s' id :
  moves i s s' -> i <> id -> record s' id = record s id.
Proof.
  intros [|q q' t Hq Ht Hc] Hne; [done|].
  by rewrite record_at_time, record_put_ne.
Qed.

(** What a call of [RestartProcess] on [i] means for the record under [id]:
    every launch for [id] is paid for by one more on its restart counter. *)
Lemma RestartProcess_pays i senv env s id p :
  record s id = Some p ->
  min_int <= RestartCount p -> MaxRestarts p <= max_int ->
  exists p',
    record (final (RestartProcess i senv env s)) id = Some p' /\
    RestartCount p + Z.of_nat (launches id (trace (RestartProcess i senv env s)))
      <= RestartCount p'.
Proof.
  intros Hp Hlo Hhi. destruct (decide (i = id)) as [->|Hne].
  - destruct (decide (RestartCount p < MaxRestarts p)) as [Hr|Hr].
    2: { erewrite RestartProcess_refused by (done || lia). simpl.
         exists p. split; [done|]. unfold launches. simpl. lia. }
    erewrite RestartProcess_granted by done.
    rewrite final_after_events, trace_after_events, launches_app.
    destruct (StartProcess_RestartCount id env
                (at_time (clock s + 2000) (put id (restarting p) s))
                (restarting p)) as (q' & Hq' & Hrc).
    { rewrite record_at_time. apply record_put_eq. }
    exists q'. split; [done|]. rewrite Hrc. simpl.
    rewrite int_incr_eq by lia.
    pose proof (StartProcess_launches id env
                  (at_time (clock s + 2000) (put id (restarting p) s)) id)
      as [Hle _].
    unfold launches in *. simpl. lia.
  - assert (launches id (trace (RestartProcess i senv env s)) = 0%nat) as ->.
    { destruct (record s i) as [q|] eqn:Hq;
        [| by rewrite RestartProcess_unknown].
      destruct (decide (RestartCount q < MaxRestarts q)) as [Hr|Hr];
        [| by erewrite RestartProcess_refused by (done || lia)].
      erewrite RestartProcess_granted by done.
      rewrite trace_after_events, launches_app.
      by rewrite (proj2 (StartProcess_launches _ _ _ _)). }
    exists p. split; [|lia].
    by rewrite (moves_record_ne _ _ _ _ (RestartProcess_moves i senv env s)).
Qed.

(** Across steps the restart counter of a record only goes up, and not beyond
    the maximum, which stays what it is. *)
Lemma steps_RestartCount s s' id p :
  rtc step s s' -> record s id = Some p ->
  min_int <= RestartCount p -> MaxRestarts p <= max_int ->
  exists p',
    record s' id = Some p' /\ MaxRestarts p' = MaxRestarts p /\
    RestartCount p <= RestartCount p' <= Z.max (RestartCount p) (MaxRestarts p).
Proof.
  intros Hs. revert p. induction Hs as [s|s s1 s2 H1 _ IH]; intros p Hp Hlo Hhi.
  - exists p. repeat split; (done || lia).
  - destruct (step_record _ _ _ _ H1 Hp) as (q & Hq & [->|Hc]); [by apply IH|].
    pose proof (change_MaxRestarts _ _ _ Hc) as HM.
    pose proof (change_RestartCount _ _ _ Hc Hlo Hhi) as HR.
    destruct (IH q Hq) as (p' & Hp' & HM' & HR'); [lia..|].
    exists p'. split; [done|]. split; [congruence|]. lia.
Qed.

(** One call, and the budget of a record. *)
Lemma exec_budget c s id p :
  record s id = Some p ->
  ids_fresh s -> nextProcessID (plm s) < max_int ->
  min_int <= RestartCount p -> MaxRestarts p <= max_int ->
  exists p',
    record (final (exec c s)) id = Some p' /\
    MaxRestarts p' = MaxRestarts p /\
    RestartCount p' <= Z.max (RestartCount p) (MaxRestarts p) /\
    RestartCount p + Z.of_nat (restart_launches_of id c s) <= RestartCount p' /\
    ids_fresh (final (exec c s)) /\
    nextProcessID (plm (final (exec c s))) <= nextProcessID (plm s) + 1.
Proof.
  intros Hp Hf Hn Hlo Hhi.
  destruct (is_create_dec c) as [(name & command & dt & ->)|Hc].
  - destruct (exec_ids_fresh (CallCreate name command dt) s Hf Hn) as [Hf' Hn'].
    exists p. split_and!; try done; try lia; [|cbn [restart_launches_of]; lia].
    cbn [exec]. rewrite final_discard, CreateProcess_eq. unfold record. simpl.
    assert (nextProcessID (plm s) <> id) as Hne.
    { destruct Hf as [_ Hf]. assert (is_Some (record s id)) as Hi by eauto.
      apply Hf in Hi. lia. }
    by rewrite lookup_insert_ne.
  - pose proof (exec_steps c s Hc) as Hs.
    destruct (steps_RestartCount _ _ _ _ Hs Hp Hlo Hhi)
      as (p' & Hp' & HM & HR1 & HR2).
    destruct (exec_ids_fresh c s Hf Hn) as [Hf' Hn'].
    exists p'. split_and!; try done.
    destruct c; try (simpl; lia).
    cbn [restart_launches_of exec]. rewrite trace_discard.
    destruct (RestartProcess_pays id0 senv env s id p Hp Hlo Hhi)
      as (q & Hq & Hpay).
    cbn [exec] in Hp'. rewrite final_discard in Hp'. congruence.
Qed.

(** Over a run, the launches made from inside [RestartProcess] for a record
    stay within what is left of its budget. *)
Lemma restart_launches_bound cs : forall s id p,
  record s id = Some p ->
  ids_fresh s -> nextProcessID (plm s) + Z.of_nat (length cs) <= max_int ->
  min_int <= RestartCount p -> MaxRestarts p <= max_int ->
  Z.of_nat (restart_launches id cs s) <=
    Z.max 0 (MaxRestarts p - RestartCount p).
Proof.
  induction cs as [|c cs IH]; intros s id p Hp Hf Hn Hlo Hhi; [simpl; lia|].
  cbn [restart_launches]. cbn [length] in Hn.
  destruct (exec_budget c s id p Hp Hf ltac:(lia) Hlo Hhi)
    as (p' & Hp' & HM & Hup & Hpay & Hf' & Hn').
  destruct (exec c s) as [[] s1 t1 | w s1 t1] eqn:He; simpl in Hp', Hf', Hn'.
  - specialize (IH s1 id p' Hp' Hf' ltac:(lia) ltac:(lia) ltac:(lia)). lia.
  - lia.
Qed.

(** C8. [RestartProcess] on a record whose restart counter has reached the
    maximum is turned down with the budget error, the program left as it was
    and nothing launched. Otherwise the counter is one higher by the time
    [StartProcess] is entered. The monitor spawns a restart after a failed
    health check only for a counter strictly below the maximum. And over any
    run, the launches made from inside [RestartProcess] for a record are no
    more than what was left between its counter and its maximum: no more than
    the maximum for a record fresh from [CreateProcess]. (The two fields are
    Go [int]s, and the run does not exhaust the ids.) *)
Theorem restart_budget_respected s id p :
  record s id = Some p ->
  min_int <= RestartCount p -> MaxRestarts p <= max_int ->
  (RestartCount p >= MaxRestarts p ->
   forall senv env,
     RestartProcess id senv env s =
     Ret (Some (ErrMaxRestarts id (MaxRestarts p))) s []) /\
  (RestartCount p < MaxRestarts p ->
   forall senv env,
     RestartProcess id senv env s =
     after_events [EvState id StateRestarting; EvSleep 2000]
       (StartProcess id env
          (at_time (clock s + 2000)
             (put id (set_RestartCount (RestartCount p + 1)
                        (set_State StateRestarting p)) s)))) /\
  (forall sig0_ok i,
     In (EvSpawnRestart i) (trace (monitorProcess id WakeTick sig0_ok s)) ->
     RestartCount p < MaxRestarts p) /\
  (forall cs,
     ids_fresh s ->
     nextProcessID (plm s) + Z.of_nat (length cs) <= max_int ->
     Z.of_nat (restart_launches id cs s) <=
       Z.max 0 (MaxRestarts p - RestartCount p)).
Proof.
  intros Hp Hlo Hhi. split_and!.
  - intros Hr senv env. by apply RestartProcess_refused.
  - intros Hr senv env. erewrite RestartProcess_granted by done.
    unfold restarting. by rewrite int_incr_eq by lia.
  - intros sig0_ok i.
    destruct (decide (State p = StateRunning)) as [Hr|Hr];
      [| by erewrite monitorProcess_not_running by done].
    destruct (Check (HealthCheck p) p sig0_ok) eqn:Hh;
      [by erewrite monitorProcess_healthy by done|].
    erewrite monitorProcess_unhealthy by done. simpl.
    case_bool_decide; [done|]. by intros [|[]].
  - intros cs Hf Hn. by apply restart_launches_bound.
Qed.

Lemma restart_budget_respected_witness :
  (record demo_started 1 = Some demo_record /\
   min_int <= RestartCount demo_record /\
   MaxRestarts demo_record <= max_int /\
   ids_fresh demo_started /\
   nextProcessID (plm demo_started) + Z.of_nat (length demo_restarts)
     <= max_int) /\
  Z.of_nat (restart_launches 1 demo_restarts demo_started) <= 3.
Proof.
  assert (Hlo : min_int <= RestartCount demo_record) by discriminate.
  assert (Hhi : MaxRestarts demo_record <= max_int) by discriminate.
  pose proof demo_started_ids_fresh as Hf.
  assert (Hn : nextProcessID (plm demo_started)
               + Z.of_nat (length demo_restarts) <= max_int)
    by (vm_compute; discriminate).
  split; [exact (conj demo_started_record (conj Hlo (conj Hhi (conj Hf Hn))))|].
  destruct (restart_budget_respected demo_started 1 demo_record
              demo_started_record Hlo Hhi) as (_ & _ & _ & H).
  exact (H demo_restarts Hf Hn).
Defined.

Example restart_launches_demo :
  restart_launches 1 demo_restarts demo_started = 3%nat.
Proof. vm_compute. reflexivity. Qed.

(** * Further properties *)

(** ** Stopping, again *)

(** [StopProcess] returns; it has no way to panic. *)
Lemma StopProcess_returns id env s :
  exists r s' t, StopProcess id env s = Ret r s' t.
Proof.
  destruct (record s id) as [p|] eqn:Hp;
    [| rewrite StopProcess_unknown by done; eauto].
  destruct (decide (State p = StateRunning)) as [Hr|Hr];
    [| erewrite StopProcess_not_running by done; eauto].
  destruct (cmd p) as [c|] eqn:Hc.
  2: { erewrite StopProcess_no_handle by (done || by left). eauto. }
  destruct (Process c) as [pid|] eqn:Hpid.
  2: { erewrite StopProcess_no_handle by (done || right; by exists c). eauto. }
  destruct (sigterm_ok env) eqn:Hs.
  2: { erewrite StopProcess_sigterm_failed by done. eauto. }
  destruct (exits_in_grace env) eqn:Hg.
  - erewrite StopProcess_graceful by done. eauto.
  - erewrite StopProcess_forced by done. eauto.
Qed.

(** The two ways [StopProcess] leaves a Running record. *)
Lemma StopProcess_running_final id env s p :
  record s id = Some p -> State p = StateRunning ->
  final (StopProcess id env s) = put id (set_State StateStopping p) s \/
  exists t, clock s <= t /\
    final (StopProcess id env s) = at_time t (put id (stopped p t) s).
Proof.
  intros Hp Hr.
  destruct (cmd p) as [c|] eqn:Hc.
  2: { erewrite StopProcess_no_handle by (done || by left).
       right. eexists. split; [|done]. lia. }
  destruct (Process c) as [pid|] eqn:Hpid.
  2: { erewrite StopProcess_no_handle by (done || right; by exists c).
       right. eexists. split; [|done]. lia. }
  destruct (sigterm_ok env) eqn:Hs.
  2: { erewrite StopProcess_sigterm_failed by done. by left. }
  destruct (exits_in_grace env) eqn:Hg.
  - erewrite StopProcess_graceful by done.
    right. eexists. split; [|done]. lia.
  - erewrite StopProcess_forced by done.
    right. eexists. split; [|done]. lia.
Qed.

(** Whatever [StopProcess] did, the record it was called on is not Running
    afterwards. *)
Lemma StopProcess_leaves_not_running id env s p' :
  record (final (StopProcess id env s)) id = Some p' -> State p' <> StateRunning.
Proof.
  destruct (record s id) as [p|] eqn:Hp.
  2: { rewrite StopProcess_unknown by done. simpl. congruence. }
  destruct (decide (State p = StateRunning)) as [Hr|Hr].
  2: { erewrite StopProcess_not_running by done. simpl. congruence. }
  destruct (StopProcess_running_final id env s p Hp Hr) as [E|(t & _ & E)];
    rewrite E.
  - rewrite record_put_eq. by intros [= <-].
  - rewrite record_at_time, record_put_eq. by intros [= <-].
Qed.

(** A record that is not Running is not touched by any [StopProcess]. *)
Lemma StopProcess_spares_not_running id env s k q :
  record s k = Some q -> State q <> StateRunning ->
  record (final (StopProcess id env s)) k = Some q.
Proof.
  intros Hq Hnr. destruct (decide (id = k)) as [->|Hne].
  - by erewrite StopProcess_not_running by done.
  - by rewrite (moves_record_ne _ _ _ _ (StopProcess_moves id env s)).
Qed.

(** X1. A [StopProcess] that follows a [StopProcess] on the same id, whatever
    the first one did, is turned down with an error (unknown id, or not
    running) and does nothing: nothing is signalled, nothing is written. *)
Theorem StopProcess_again_rejected id env env' s :
  let s' := final (StopProcess id env s) in
  (StopProcess id env' s' = Ret (Some (ErrNotFound id)) s' [] \/
   StopProcess id env' s' = Ret (Some (ErrNotRunning id)) s' []).
Proof.
  intros s'. destruct (record s' id) as [p'|] eqn:Hp'.
  - right. eapply StopProcess_not_running; [done|].
    by eapply StopProcess_leaves_not_running.
  - left. by apply StopProcess_unknown.
Qed.

(** ** Unknown ids and other records *)

(** X3. On an id that is not in the registry, [StartProcess], [StopProcess],
    [RestartProcess], [SetProcessEnvironment], [SetProcessDependencies] and
    [GetProcessStatus] all return the not-found error and leave the program
    as it is; nothing is launched, and no restart is counted. *)
Theorem unknown_id_rejected id s :
  record s id = None ->
  (forall env, StartProcess id env s = Ret (Some (ErrNotFound id)) s []) /\
  (forall env, StopProcess id env s = Ret (Some (ErrNotFound id)) s []) /\
  (forall senv env,
      RestartProcess id senv env s = Ret (Some (ErrNotFound id)) s []) /\
  (forall env,
      SetProcessEnvironment id env s = Ret (Some (ErrNotFound id)) s []) /\
  (forall deps,
      SetProcessDependencies id deps s = Ret (Some (ErrNotFound id)) s []) /\
  GetProcessStatus id s = Ret (None, Some (ErrNotFound id)) s [].
Proof.
  intros H. split_and!.
  - intros env. by apply StartProcess_unknown.
  - intros env. by apply StopProcess_unknown.
  - intros senv env. by apply RestartProcess_unknown.
  - intros env. unfold SetProcessEnvironment, bind. mstep. by rewrite H.
  - intros deps. unfold SetProcessDependencies, bind. mstep. by rewrite H.
  - unfold GetProcessStatus, bind. mstep. by rewrite H.
Qed.

Lemma demo_started_no_9 : record demo_started 9 = None.
Proof. vm_compute. reflexivity. Qed.

Lemma unknown_id_rejected_witness :
  record demo_started 9 = None /\
  RestartProcess 9 (mkStopEnv true true 0) (mkStartEnv (Some 1%positive) 0)
    demo_started =
  Ret (Some (ErrNotFound 9)) demo_started [].
Proof.
  split; [exact demo_started_no_9|].
  destruct (unknown_id_rejected 9 demo_started demo_started_no_9)
    as (_ & _ & H & _).
  apply H.
Defined.

Lemma monitorProcess_final_moves id wake sig0_ok s :
  moves id s (final (monitorProcess id wake sig0_ok s)).
Proof.
  destruct (record s id) as [p|] eqn:Hp.
  - apply monitorProcess_moves. by rewrite Hp.
  - destruct wake; [|rewrite monitorProcess_shutdown; constructor].
    unfold monitorProcess, bind, deref. unfold record in Hp. rewrite Hp.
    constructor.
Qed.

(** X12. An operation on one record leaves every other record of the
    registry exactly as it was: [StartProcess], [StopProcess],
    [RestartProcess], a round of the monitor, [SetProcessEnvironment] and
    [SetProcessDependencies] write the record they are called on and no
    other. *)
Theorem operations_touch_one_record id k s :
  id <> k ->
  (forall env, record (final (StartProcess id env s)) k = record s k) /\
  (forall env, record (final (StopProcess id env s)) k = record s k) /\
  (forall senv env,
      record (final (RestartProcess id senv env s)) k = record s k) /\
  (forall wake sig0_ok,
      record (final (monitorProcess id wake sig0_ok s)) k = record s k) /\
  (forall env, record (final (SetProcessEnvironment id env s)) k = record s k) /\
  (forall deps,
      record (final (SetProcessDependencies id deps s)) k = record s k).
Proof.
  intros Hne. split_and!; intros.
  - by eapply moves_record_ne, Hne; apply StartProcess_moves.
  - by eapply moves_record_ne, Hne; apply StopProcess_moves.
  - by eapply moves_record_ne, Hne; apply RestartProcess_moves.
  - by eapply moves_record_ne, Hne; apply monitorProcess_final_moves.
  - by eapply moves_record_ne, Hne; apply SetProcessEnvironment_moves.
  - by eapply moves_record_ne, Hne; apply SetProcessDependencies_moves.
Qed.

Lemma operations_touch_one_record_witness :
  2 <> 1 /\
  record (final (RestartProcess 2 (mkStopEnv true true 0)
                   (mkStartEnv (Some 1%positive) 0) demo_dependent)) 1
  = record demo_dependent 1.
Proof.
  assert (H : 2 <> 1) by discriminate. split; [exact H|].
  destruct (operations_touch_one_record 2 1 demo_dependent H)
    as (_ & _ & H3 & _).
  apply H3.
Defined.

(** A step never takes a record out of the registry. *)
Lemma steps_keep_records s s' id :
  rtc step s s' -> is_Some (record s id) -> is_Some (record s' id).
Proof.
  induction 1 as [|s0 s1 s2 H _ IH]; [done|]. intros [p Hp]. apply IH.
  destruct (step_record _ _ _ _ H Hp) as (q & Hq & _). eauto.
Qed.

(** X13. No call ever takes a record out of the registry: an id that is in
    use stays in use, whatever is called, a panic included. *)
Theorem registry_never_forgets c s id :
  is_Some (record s id) -> is_Some (record (final (exec c s)) id).
Proof.
  intros Hid. destruct (is_create_dec c) as [(name & command & dt & ->)|Hc].
  - cbn [exec]. rewrite final_discard, CreateProcess_eq. unfold record.
    cbn [final plm processes].
    destruct (decide (nextProcessID (plm s) = id)) as [->|Hne].
    + rewrite lookup_insert_eq. eauto.
    + by rewrite lookup_insert_ne.
  - eapply steps_keep_records; [by apply exec_steps | done].
Qed.

Lemma registry_never_forgets_witness :
  is_Some (record demo_started 1) /\
  is_Some (record (final (exec (CallShutdownAll (fun _ => mkStopEnv true true 0))
                            demo_started)) 1).
Proof.
  assert (H : is_Some (record demo_started 1))
    by (rewrite demo_started_record; eauto).
  split; [exact H|].
  exact (registry_never_forgets
           (CallShutdownAll (fun _ => mkStopEnv true true 0)) demo_started 1 H).
Defined.

(** ** What holds of every record of a reachable program *)

(** A record of the program after a step was there before, as it is or
    before a change. *)
Lemma step_record_was s s' id q :
  step s s' -> record s' id = Some q ->
  record s id = Some q \/
  exists p, record s id = Some p /\ change (clock s') p q.
Proof.
  intros [i s0 s1 [|p p' t Hp Ht Hc]|s0]; auto.
  rewrite record_at_time, clock_at_time.
  destruct (decide (i = id)) as [->|Hne].
  - rewrite record_put_eq. intros [= <-]. right. eauto.
  - rewrite record_put_ne by done. auto.
Qed.

Section record_invariant.
Variable P : ManagedProcess -> Prop.
Hypothesis P_change : forall t p p', change t p p' -> P p -> P p'.
Hypothesis P_created : forall id name command t,
  P (mkProcess id 0 name command StateCreated t None 0 3
       DefaultHealthChecker [] ∅ "/tmp" "" None).

Lemma steps_record_invariant s s' :
  rtc step s s' ->
  (forall id p, record s id = Some p -> P p) ->
  forall id p, record s' id = Some p -> P p.
Proof.
  induction 1 as [|s0 s1 s2 H _ IH]; [done|]. intros H0. apply IH.
  intros id q Hq.
  destruct (step_record_was _ _ _ _ H Hq) as [Hs|(p & Hp & Hc)]; eauto.
Qed.

Lemma exec_record_invariant c s :
  (forall id p, record s id = Some p -> P p) ->
  forall id p, record (final (exec c s)) id = Some p -> P p.
Proof.
  intros H0. destruct (is_create_dec c) as [(name & command & dt & ->)|Hc].
  - cbn [exec]. rewrite final_discard, CreateProcess_eq. unfold record.
    cbn [final plm processes]. intros id p.
    destruct (decide (nextProcessID (plm s) = id)) as [->|Hne].
    + rewrite lookup_insert_eq. intros [= <-]. apply P_created.
    + rewrite lookup_insert_ne by done. apply H0.
  - eapply steps_record_invariant; [by apply exec_steps | done].
Qed.

Lemma reachable_record_invariant s :
  reachable s -> forall id p, record s id = Some p -> P p.
Proof.
  intros (t0 & cs & t & Hrun).
  assert (H0 : forall id p, record (boot t0) id = Some p -> P p).
  { intros id p. unfold record, boot. simpl. by rewrite lookup_empty. }
  revert Hrun H0. generalize (boot t0). revert t.
  induction cs as [|c cs IH]; intros t s0.
  - by intros [= <- <-].
  - intros (s1 & t1 & t2 & He & Hr & _)%run_cons_inv H0.
    eapply IH; [done|]. pose proof (exec_record_invariant c s0 H0) as H1.
    by rewrite He in H1.
Qed.
End record_invariant.

Lemma change_factory_settings t p p' :
  change t p p' -> factory_settings p -> factory_settings p'.
Proof.
  induction 1; auto; unfold factory_settings; simpl; try done.
  intros (HM & HR & HH & HW & HL). rewrite HM in *.
  rewrite int_incr_eq by (unfold min_int, max_int; lia).
  repeat split; (done || lia).
Qed.

Lemma reachable_factory_settings s id p :
  reachable s -> record s id = Some p -> factory_settings p.
Proof.
  intros Hs Hp.
  eapply (reachable_record_invariant factory_settings); [| |done|done].
  - apply change_factory_settings.
  - intros. by repeat split.
Qed.

(** X5. The program has no way to change what [CreateProcess] decides. In
    every reachable state every record has the maximum restart count 3, a
    restart counter from 0 to 3, the default health checker, the working
    directory "/tmp" and no log file, and sits under the id it carries. *)
Theorem settings_never_change s id p :
  reachable s -> record s id = Some p ->
  factory_settings p /\ ID p = id.
Proof.
  intros Hs Hp. split.
  - by eapply reachable_factory_settings.
  - by destruct (reachable_consistent s Hs id p Hp).
Qed.

Lemma settings_never_change_witness :
  (reachable demo_stopped /\
   record demo_stopped 1 = Some demo_stopped_record) /\
  factory_settings demo_stopped_record /\ ID demo_stopped_record = 1.
Proof.
  split; [split; [exact demo_stopped_reachable | exact demo_stopped_lookup]|].
  exact (settings_never_change demo_stopped 1 demo_stopped_record
           demo_stopped_reachable demo_stopped_lookup).
Defined.

(** X6. A round of the monitor on a record of a reachable program. A record
    that is not Running ends the monitor and nothing else. A Running record
    that answers signal 0 is left alone and the monitor goes on. A Running
    record that does not answer becomes Failed, the monitor ends, and a
    restart is spawned exactly when fewer than three restarts were made. *)
Theorem monitor_round s id p sig0_ok :
  reachable s -> record s id = Some p ->
  monitorProcess id WakeTick sig0_ok s =
  if decide (State p = StateRunning) then
    if sig0_ok then Ret MonitorContinue s []
    else Ret MonitorReturn (put id (set_State StateFailed p) s)
           (EvState id StateFailed ::
            if bool_decide (RestartCount p < 3) then [EvSpawnRestart id]
            else [])
  else Ret MonitorReturn s [].
Proof.
  intros Hs Hp.
  destruct (reachable_factory_settings s id p Hs Hp) as (HM & _ & HH & _).
  destruct (reachable_consistent s Hs id p Hp) as (HI & Hsound & _).
  destruct (decide (State p = StateRunning)) as [Hr|Hr];
    [| by eapply monitorProcess_not_running].
  destruct Hsound as [(_ & _ & Hnr & _)|(c & pid & Hc & Hpid & _)]; [done|].
  assert (Check (HealthCheck p) p sig0_ok = sig0_ok) as Hcheck
    by (by rewrite HH; simpl; rewrite Hc, Hpid).
  destruct sig0_ok.
  - by eapply monitorProcess_healthy.
  - erewrite monitorProcess_unhealthy by done. by rewrite HM, HI.
Qed.

Lemma monitor_round_witness :
  (reachable demo_started /\ record demo_started 1 = Some demo_record) /\
  monitorProcess 1 WakeTick false demo_started =
  Ret MonitorReturn (put 1 (set_State StateFailed demo_record) demo_started)
    [EvState 1 StateFailed; EvSpawnRestart 1].
Proof.
  split; [split; [exact demo_started_reachable | exact demo_started_record]|].
  exact (monitor_round demo_started 1 demo_record false
           demo_started_reachable demo_started_record).
Defined.

(** ** The ids given out *)

Lemma steps_records_back s s' id :
  rtc step s s' -> is_Some (record s' id) -> is_Some (record s id).
Proof.
  induction 1 as [|s0 s1 s2 H _ IH]; [done|]. intros Hid.
  eapply step_record_back; [done|]. by apply IH.
Qed.

Lemma creates_not_create c cs :
  (forall name command dt, c <> CallCreate name command dt) ->
  creates (c :: cs) = creates cs.
Proof. intros Hc. destruct c; try done. by edestruct Hc. Qed.

(** From a program whose ids in use are exactly those from 1 up to the next
    one, a run keeps it so and moves the next id up by the number of
    [CreateProcess] in it. *)
Lemma run_ids_exact cs : forall s s' t,
  run cs s = Ret tt s' t ->
  1 <= nextProcessID (plm s) ->
  nextProcessID (plm s) + Z.of_nat (length cs) <= max_int ->
  (forall id, is_Some (record s id) <-> 1 <= id < nextProcessID (plm s)) ->
  nextProcessID (plm s') = nextProcessID (plm s) + Z.of_nat (creates cs) /\
  (forall id, is_Some (record s' id) <-> 1 <= id < nextProcessID (plm s')).
Proof.
  induction cs as [|c cs IH]; intros s s' t.
  - intros [= <- <-] H1 Hn Hx. simpl. split; [lia|done].
  - intros (s1 & t1 & t2 & He & Hr & _)%run_cons_inv H1 Hn Hx.
    cbn [length] in Hn.
    assert (final (exec c s) = s1) as Hfin by (by rewrite He).
    destruct (is_create_dec c) as [(name & command & dt & ->)|Hc].
    + cbn [exec] in Hfin. rewrite final_discard, CreateProcess_eq in Hfin.
      cbn [final] in Hfin. subst s1. cbn [creates].
      edestruct (IH _ s' t2 Hr) as [IH1 IH2].
      * cbn [plm nextProcessID].
        rewrite int_incr_eq by (unfold min_int; lia). lia.
      * cbn [plm nextProcessID].
        rewrite int_incr_eq by (unfold min_int; lia). lia.
      * intros id. unfold record. cbn [plm nextProcessID processes].
        rewrite int_incr_eq by (unfold min_int; lia).
        destruct (decide (nextProcessID (plm s) = id)) as [<-|Hne].
        -- rewrite lookup_insert_eq. split; [lia|eauto].
        -- rewrite lookup_insert_ne by done. fold (record s id).
           rewrite Hx. lia.
      * split; [|exact IH2]. rewrite IH1. cbn [plm nextProcessID].
        rewrite int_incr_eq by (unfold min_int; lia). lia.
    + pose proof (exec_steps c s Hc) as Hs. rewrite Hfin in Hs.
      rewrite (creates_not_create c cs Hc).
      rewrite <- (steps_nextProcessID _ _ Hs).
      apply (IH s1 s' t2 Hr).
      * rewrite (steps_nextProcessID _ _ Hs). lia.
      * rewrite (steps_nextProcessID _ _ Hs). lia.
      * intros id. rewrite (steps_nextProcessID _ _ Hs), <- Hx.
        split; [by apply steps_records_back | by apply steps_keep_records].
Qed.

(** X14. Ids are given out in order and never twice. After a run from a
    fresh manager that returns (and is short of the 2^63 calls it takes to
    wrap the counter), the ids in use are exactly 1 to n, n the number of
    [CreateProcess] made, and the next id is n + 1. *)
Theorem ids_count_up t0 cs s t :
  run cs (boot t0) = Ret tt s t ->
  Z.of_nat (length cs) < max_int ->
  nextProcessID (plm s) = 1 + Z.of_nat (creates cs) /\
  (forall id, is_Some (record s id) <-> 1 <= id <= Z.of_nat (creates cs)).
Proof.
  intros Hrun Hlen.
  destruct (run_ids_exact cs (boot t0) s t Hrun) as [H1 H2].
  - done.
  - cbn [boot plm nextProcessID NewProcessLifecycleManager]. lia.
  - intros id. unfold record, boot. cbn [plm processes nextProcessID
      NewProcessLifecycleManager]. rewrite lookup_empty.
    split; [by intros [? ?] | lia].
  - cbn [boot plm nextProcessID NewProcessLifecycleManager] in H1.
    split; [done|]. intros id. rewrite H2, H1. lia.
Qed.

Lemma ids_count_up_witness :
  (run demo_dependent_calls (boot 100) = Ret tt demo_dependent [] /\
   Z.of_nat (length demo_dependent_calls) < max_int) /\
  nextProcessID (plm demo_dependent) = 3 /\
  (forall id, is_Some (record demo_dependent id) <-> 1 <= id <= 2).
Proof.
  assert (Hlen : Z.of_nat (length demo_dependent_calls) < max_int)
    by reflexivity.
  split; [split; [exact demo_dependent_run | exact Hlen]|].
  exact (ids_count_up 100 demo_dependent_calls demo_dependent []
           demo_dependent_run Hlen).
Defined.

(** ** Shutting down, once *)

Lemma stop_each_returns running env s :
  exists s' t, stop_each running env s = Ret tt s' t.
Proof.
  revert s. induction running as [|q rest IH]; intros s; [by eexists _, _|].
  cbn [stop_each]. unfold bind.
  destruct (StopProcess_returns (ID q) (env (ID q)) s) as (r & s1 & t1 & ->).
  destruct (IH s1) as (s2 & t2 & ->). by eexists _, _.
Qed.

(** If every Running record is on the list, under its own id, none is
    Running once the list has been gone through. *)
Lemma stop_each_stops running env : forall s,
  (forall id p, record s id = Some p -> State p = StateRunning ->
                exists q, q ∈ running /\ ID q = id) ->
  forall id p, record (final (stop_each running env s)) id = Some p ->
               State p <> StateRunning.
Proof.
  induction running as [|q rest IH]; intros s Hall id p.
  - simpl. intros Hp Hr. destruct (Hall id p Hp Hr) as (q & Hq & _).
    by apply elem_of_nil in Hq.
  - cbn [stop_each]. unfold bind.
    pose proof (StopProcess_leaves_not_running (ID q) (env (ID q)) s) as Hnr.
    pose proof (StopProcess_moves (ID q) (env (ID q)) s) as Hm.
    destruct (StopProcess_returns (ID q) (env (ID q)) s) as (r & s1 & t1 & E).
    rewrite E in Hnr, Hm |- *. cbn [final] in Hnr, Hm.
    assert (final match stop_each rest env s1 with
                  | Ret b s2 t2 => Ret b s2 (t1 ++ t2)
                  | Panic w s2 t2 => Panic w s2 (t1 ++ t2)
                  end = final (stop_each rest env s1)) as ->
      by (by destruct (stop_each rest env s1)).
    apply IH. intros k pk Hk Hrun.
    destruct (decide (ID q = k)) as [Heq|Hne].
    + subst k. by destruct (Hnr pk Hk).
    + rewrite (moves_record_ne _ _ _ _ Hm Hne) in Hk.
      destruct (Hall k pk Hk Hrun) as (q' & Hq' & Hid).
      exists q'. split; [|done].
      apply elem_of_cons in Hq' as [->|Hq']; [done|done].
Qed.

(** [ShutdownAll] with the channel open. *)
Lemma ShutdownAll_open env s :
  reachable s -> shutdownClosed (plm s) = false ->
  exists s' t,
    ShutdownAll env s = Ret tt s' t /\
    shutdownClosed (plm s') = true /\
    (forall id p, record s' id = Some p -> State p <> StateRunning).
Proof.
  intros Hs Hopen.
  pose proof (ShutdownAll_closes env s) as Hclosed.
  assert (Hstops : forall id p,
             record (final (ShutdownAll env s)) id = Some p ->
             State p <> StateRunning).
  { unfold ShutdownAll, bind, close_shutdownChannel, get_plm.
    rewrite Hopen. cbn [plm processes].
    match goal with |- context [stop_each ?l env ?s1] =>
      pose proof (stop_each_stops l env s1) as Hst;
      destruct (stop_each l env s1) eqn:E end;
      cbn [final] in Hst |- *; apply Hst; clear Hst.
    all: intros id p Hp Hr; exists p;
      (split; [| by destruct (reachable_consistent s Hs id p Hp)]);
      apply list_elem_of_filter; split; [done|];
      apply list_elem_of_fmap; exists (id, p); split; [done|];
      by apply elem_of_map_to_list. }
  assert (Hret : exists s' t, ShutdownAll env s = Ret tt s' t).
  { unfold ShutdownAll, bind, close_shutdownChannel, get_plm.
    rewrite Hopen. cbn [plm processes].
    match goal with |- context [stop_each ?l env ?s1] =>
      destruct (stop_each_returns l env s1) as (s' & t & ->) end.
    by eexists _, _. }
  destruct Hret as (s' & t & E). rewrite E in Hclosed, Hstops.
  cbn [final] in Hclosed, Hstops. by exists s', t.
Qed.

(** X2. [ShutdownAll] on a reachable program whose channel is still open
    returns, with the channel closed and no record left Running (each one
    Stopped, or Stopping where SIGTERM could not be delivered); from then on
    a monitor woken by the channel ends without doing anything. *)
Theorem ShutdownAll_stops_everything env s :
  reachable s -> shutdownClosed (plm s) = false ->
  exists s' t,
    ShutdownAll env s = Ret tt s' t /\
    shutdownClosed (plm s') = true /\
    (forall id p, record s' id = Some p -> State p <> StateRunning) /\
    (forall id sig0_ok,
        monitorProcess id WakeShutdown sig0_ok s' = Ret MonitorReturn s' []).
Proof.
  intros Hs Hopen.
  destruct (ShutdownAll_open env s Hs Hopen) as (s' & t & E & Hclosed & Hstops).
  exists s', t. split_and!; try done.
  intros id sig0_ok. rewrite monitorProcess_shutdown. by rewrite Hclosed.
Qed.

Lemma ShutdownAll_stops_everything_witness :
  (reachable demo_started /\ shutdownClosed (plm demo_started) = false) /\
  exists s' t,
    ShutdownAll (fun _ => mkStopEnv true false 0) demo_started = Ret tt s' t /\
    shutdownClosed (plm s') = true /\
    (forall id p, record s' id = Some p -> State p <> StateRunning).
Proof.
  split; [split; [exact demo_started_reachable | reflexivity]|].
  destruct (ShutdownAll_stops_everything (fun _ => mkStopEnv true false 0)
              demo_started demo_started_reachable eq_refl)
    as (s' & t & H1 & H2 & H3 & _).
  exists s', t. split; [exact H1 | split; [exact H2 | exact H3]].
Defined.

(** ** Dependency cycles *)

Section deadlock.
Variable S : gset Z.

(** A record of a deadlocked set does not pass [checkDependencies]. *)
Lemma deadlocked_blocked s id p :
  deadlocked S s -> id ∈ S -> record s id = Some p ->
  checkDependencies_loop (processes (plm s)) (Dependencies p) = false.
Proof.
  intros HD Hid Hp. destruct (HD id Hid) as (p0 & Hp0 & _ & d & Hd & HdS).
  assert (p0 = p) as -> by congruence.
  destruct (HD d HdS) as (q & Hq & Hnr & _).
  apply not_true_is_false. rewrite checkDependencies_loop_true, Forall_forall.
  intros Hall. destruct (Hall d) as (dep & Hdep & Hrun);
    [by apply list_elem_of_In|].
  unfold record in Hq. congruence.
Qed.

Lemma deadlocked_put s i p' t :
  deadlocked S s ->
  (i ∈ S -> State p' <> StateRunning /\
            exists d, In d (Dependencies p') /\ d ∈ S) ->
  deadlocked S (at_time t (put i p' s)).
Proof.
  intros HD Hi id Hid. rewrite record_at_time.
  destruct (decide (i = id)) as [->|Hne].
  - rewrite record_put_eq. destruct (Hi Hid) as [? ?]. eauto.
  - rewrite record_put_ne by done. by apply HD.
Qed.

Lemma moves_deadlocked i s s' :
  moves i s s' -> i ∉ S -> deadlocked S s -> deadlocked S s'.
Proof.
  intros [|p p' t Hp Ht Hc] Hi HD; [done|]. by apply deadlocked_put.
Qed.

Lemma StartProcess_deadlocked i env s :
  deadlocked S s -> deadlocked S (final (StartProcess i env s)).
Proof.
  intros HD. destruct (decide (i ∈ S)) as [Hi|Hi].
  - destruct (HD i Hi) as (p & Hp & _).
    by erewrite StartProcess_blocked by eauto using deadlocked_blocked.
  - eapply moves_deadlocked; [apply StartProcess_moves | done | done].
Qed.

Lemma StopProcess_deadlocked i env s :
  deadlocked S s -> deadlocked S (final (StopProcess i env s)).
Proof.
  intros HD. destruct (decide (i ∈ S)) as [Hi|Hi].
  - destruct (HD i Hi) as (p & Hp & Hnr & _).
    by erewrite StopProcess_not_running by done.
  - eapply moves_deadlocked; [apply StopProcess_moves | done | done].
Qed.

Lemma RestartProcess_deadlocked i senv env s :
  deadlocked S s -> deadlocked S (final (RestartProcess i senv env s)).
Proof.
  intros HD. destruct (decide (i ∈ S)) as [Hi|Hi].
  - destruct (HD i Hi) as (p & Hp & Hnr & d & Hd & HdS).
    destruct (decide (RestartCount p < MaxRestarts p)) as [Hr|Hr];
      [| by erewrite RestartProcess_refused by (done || lia)].
    erewrite RestartProcess_granted by done. rewrite final_after_events.
    apply StartProcess_deadlocked, deadlocked_put; [done|].
    intros _. split; [done|]. by exists d.
  - eapply moves_deadlocked; [apply RestartProcess_moves | done | done].
Qed.

Lemma monitorProcess_deadlocked i wake sig0_ok s :
  deadlocked S s -> deadlocked S (final (monitorProcess i wake sig0_ok s)).
Proof.
  intros HD. destruct (decide (i ∈ S)) as [Hi|Hi].
  - destruct wake; [| by rewrite monitorProcess_shutdown].
    destruct (HD i Hi) as (p & Hp & Hnr & _).
    by erewrite monitorProcess_not_running by done.
  - eapply moves_deadlocked; [apply monitorProcess_final_moves | done | done].
Qed.

Lemma SetProcessEnvironment_deadlocked i env s :
  deadlocked S s -> deadlocked S (final (SetProcessEnvironment i env s)).
Proof.
  intros HD. destruct (decide (i ∈ S)) as [Hi|Hi].
  - destruct (HD i Hi) as (p & Hp & Hnr & d & Hd & HdS).
    unfold SetProcessEnvironment, bind. mstep. rewrite Hp. mstep. cbn [final].
    rewrite <- (at_time_same (put _ _ _)). apply deadlocked_put; [done|].
    intros _. split; [done|]. by exists d.
  - eapply moves_deadlocked; [apply SetProcessEnvironment_moves | done | done].
Qed.

Lemma stop_each_deadlocked running env : forall s,
  deadlocked S s -> deadlocked S (final (stop_each running env s)).
Proof.
  induction running as [|q rest IH]; intros s HD; [done|].
  cbn [stop_each]. unfold bind.
  pose proof (StopProcess_deadlocked (ID q) (env (ID q)) s HD) as H1.
  destruct (StopProcess (ID q) (env (ID q)) s) as [r s1 t1|w s1 t1];
    cbn [final] in H1; [|done].
  specialize (IH s1 H1). by destruct (stop_each rest env s1).
Qed.

Lemma ShutdownAll_deadlocked env s :
  deadlocked S s -> deadlocked S (final (ShutdownAll env s)).
Proof.
  intros HD. unfold ShutdownAll, bind, close_shutdownChannel, get_plm.
  destruct (shutdownClosed (plm s)); [done|]. cbn [plm processes].
  match goal with |- context [stop_each ?l env ?s1] =>
    pose proof (stop_each_deadlocked l env s1) as H;
    destruct (stop_each l env s1) end; by apply H.
Qed.

Lemma exec_deadlocked c s :
  deadlocked S s -> ~ sets_deps_in S c ->
  (forall id, id ∈ S -> id <> nextProcessID (plm s)) ->
  deadlocked S (final (exec c s)).
Proof.
  intros HD Hc Hfresh. destruct c; cbn [exec]; rewrite ?final_discard.
  - rewrite CreateProcess_eq. cbn [final]. intros i Hi.
    destruct (HD i Hi) as (p & Hp & Hrest). exists p. split; [|done].
    unfold record. cbn [plm processes].
    rewrite lookup_insert_ne by (intros E; by apply (Hfresh i Hi)). done.
  - by apply StartProcess_deadlocked.
  - by apply StopProcess_deadlocked.
  - by apply RestartProcess_deadlocked.
  - unfold bind. mstep. destruct (record s id) eqn:Hp; [|done].
    pose proof (monitorProcess_deadlocked id wake sig0_ok s HD) as H.
    rewrite <- final_discard in H. by destruct (discard _ s).
  - by apply ShutdownAll_deadlocked.
  - by apply SetProcessEnvironment_deadlocked.
  - eapply moves_deadlocked;
      [apply SetProcessDependencies_moves | exact Hc | done].
Qed.

Lemma run_deadlocked cs : forall s s' t,
  deadlocked S s -> ids_fresh s ->
  nextProcessID (plm s) + Z.of_nat (length cs) <= max_int ->
  Forall (fun c => ~ sets_deps_in S c) cs ->
  run cs s = Ret tt s' t -> deadlocked S s'.
Proof.
  induction cs as [|c cs IH]; intros s s' t HD Hf Hn Hcs.
  - by intros [= <- <-].
  - intros (s1 & t1 & t2 & He & Hr & _)%run_cons_inv.
    cbn [length] in Hn. inversion Hcs as [|? ? Hc Hcs']; subst.
    destruct (exec_ids_fresh c s Hf ltac:(lia)) as [Hf1 Hn1].
    assert (HD1 : deadlocked S (final (exec c s))).
    { apply exec_deadlocked; [done|done|]. intros id Hid E.
      destruct (HD id Hid) as (p & Hp & _). destruct Hf as [_ Hf].
      assert (is_Some (record s id)) as Hi by eauto. apply Hf in Hi. lia. }
    rewrite He in Hf1, Hn1, HD1. cbn [final] in Hf1, Hn1, HD1.
    eapply IH; [done | done | lia | done | done].
Qed.
End deadlock.

(** X4. Records that wait for each other never start. Take a set of records
    none of which is Running and each of which has a dependency in the set.
    After any run that returns and does not set the dependencies of one of
    them anew, each is still not Running and still waits: every
    [StartProcess] and [RestartProcess] on them came back with the
    dependency error (a [RestartProcess] counting a restart all the same).
    Nothing finds the cycle or breaks it. *)
Theorem dependency_cycle_never_starts (S : gset Z) cs s s' t :
  deadlocked S s -> ids_fresh s ->
  nextProcessID (plm s) + Z.of_nat (length cs) <= max_int ->
  Forall (fun c => ~ sets_deps_in S c) cs ->
  run cs s = Ret tt s' t ->
  deadlocked S s' /\
  forall id, id ∈ S ->
    forall env, StartProcess id env s' = Ret (Some (ErrDependencies id)) s' [].
Proof.
  intros HD Hf Hn Hcs Hrun.
  pose proof (run_deadlocked S cs s s' t HD Hf Hn Hcs Hrun) as HD'.
  split; [done|]. intros id Hid env.
  destruct (HD' id Hid) as (p & Hp & _).
  eapply StartProcess_blocked; [done|]. by eapply deadlocked_blocked.
Qed.

Lemma demo_cycle_run :
  run demo_cycle_calls (boot 100) = Ret tt demo_cycle [].
Proof. vm_compute. reflexivity. Qed.

Lemma demo_cycle_deadlocked : deadlocked {[1; 2]} demo_cycle.
Proof.
  intros id Hid. apply elem_of_union in Hid as [Hid|Hid];
    apply elem_of_singleton in Hid; subst id.
  - eexists. split; [vm_compute; reflexivity|]. split; [discriminate|].
    exists 2. split; [by left | set_solver].
  - eexists. split; [vm_compute; reflexivity|]. split; [discriminate|].
    exists 1. split; [by left | set_solver].
Qed.

Lemma demo_cycle_ids_fresh : ids_fresh demo_cycle.
Proof.
  eapply (run_ids_fresh demo_cycle_calls (boot 100)).
  - apply demo_cycle_run.
  - apply boot_ids_fresh.
  - vm_compute. discriminate.
Qed.

Lemma demo_cycle_attempts_run :
  run demo_cycle_attempts demo_cycle =
  Ret tt (final (run demo_cycle_attempts demo_cycle))
         (trace (run demo_cycle_attempts demo_cycle)).
Proof. vm_compute. reflexivity. Qed.

Lemma demo_cycle_attempts_allowed :
  Forall (fun c => ~ sets_deps_in {[1; 2]} c) demo_cycle_attempts.
Proof. repeat constructor; simpl; tauto. Qed.

Lemma dependency_cycle_never_starts_witness :
  (deadlocked {[1; 2]} demo_cycle /\ ids_fresh demo_cycle) /\
  deadlocked {[1; 2]} (final (run demo_cycle_attempts demo_cycle)).
Proof.
  split; [split; [exact demo_cycle_deadlocked | exact demo_cycle_ids_fresh]|].
  assert (Hn : nextProcessID (plm demo_cycle)
               + Z.of_nat (length demo_cycle_attempts) <= max_int)
    by discriminate.
  exact (proj1 (dependency_cycle_never_starts {[1; 2]} demo_cycle_attempts
                  demo_cycle _ _ demo_cycle_deadlocked demo_cycle_ids_fresh Hn
                  demo_cycle_attempts_allowed demo_cycle_attempts_run)).
Defined.

(** ** Listing *)

Lemma string_length_append s1 s2 :
  String.length (s1 +:+ s2) = (String.length s1 + String.length s2)%nat.
Proof.
  induction s1 as [|c s1 IH]; [done|].
  change (String c s1 +:+ s2) with (String c (s1 +:+ s2)).
  cbn [String.length]. by rewrite IH.
Qed.

Lemma string_take_length n : forall s,
  (n <= String.length s)%nat -> String.length (string_take n s) = n.
Proof.
  induction n as [|n IH]; intros [|c s]; simpl; try done; try lia.
  intros H. rewrite IH; lia.
Qed.

(** [s[:n]] is the front of [s]. *)
Lemma string_take_front n : forall s,
  exists dropped, s = string_take n s +:+ dropped.
Proof.
  induction n as [|n IH]; intros s.
  - exists s. by destruct s.
  - destruct s as [|c s]; [by exists ""|].
    destruct (IH s) as (d & Hd). exists d. cbn [string_take].
    change (String c (string_take n s) +:+ d)
      with (String c (string_take n s +:+ d)).
    by rewrite <- Hd.
Qed.

Lemma truncateString_fits_aux s width :
  3 <= width ->
  exists r, truncateString s width = Some r /\
            Z.of_nat (String.length r) <= width.
Proof.
  intros Hw. unfold truncateString.
  destruct (Z.leb_spec (Z.of_nat (String.length s)) width) as [Hfit|Hlong];
    [by exists s|].
  rewrite (proj2 (Z.ltb_ge _ _)) by lia. eexists. split; [done|].
  rewrite string_length_append, string_take_length by lia.
  cbn [String.length]. lia.
Qed.

(** X7. [truncateString] with a width of at least 3 returns, and what it
    returns is never wider than the width: a string that fits comes back as
    it is; a longer one comes back as its first width - 3 bytes followed by
    three dots, exactly the width long. *)
Theorem truncateString_fits s width :
  3 <= width ->
  exists r,
    truncateString s width = Some r /\
    Z.of_nat (String.length r) <= width /\
    (Z.of_nat (String.length s) <= width -> r = s) /\
    (width < Z.of_nat (String.length s) ->
     Z.of_nat (String.length r) = width /\
     exists kept dropped,
       s = kept +:+ dropped /\ r = kept +:+ "..." /\
       Z.of_nat (String.length kept) = width - 3).
Proof.
  intros Hw. unfold truncateString.
  destruct (Z.leb_spec (Z.of_nat (String.length s)) width) as [Hfit|Hlong].
  - exists s. split; [done|]. split; [done|]. split; [done|]. lia.
  - rewrite (proj2 (Z.ltb_ge _ _)) by lia.
    assert (Hlen : String.length (string_take (Z.to_nat (width - 3)) s)
                   = Z.to_nat (width - 3))
      by (apply string_take_length; lia).
    eexists. split; [done|].
    rewrite string_length_append, Hlen. cbn [String.length].
    split; [lia|]. split; [lia|]. intros _. split; [lia|].
    destruct (string_take_front (Z.to_nat (width - 3)) s) as (d & Hd).
    exists (string_take (Z.to_nat (width - 3)) s), d.
    split; [done|]. split; [done|]. rewrite Hlen. lia.
Qed.

Lemma truncateString_fits_witness :
  3 <= 20 /\
  exists r,
    truncateString "a-rather-long-process-name" 20 = Some r /\
    Z.of_nat (String.length r) <= 20.
Proof.
  assert (H : 3 <= 20) by discriminate. split; [exact H|].
  destruct (truncateString_fits "a-rather-long-process-name" 20 H)
    as (r & Hr & Hl & _).
  exists r. split; [exact Hr | exact Hl].
Defined.

Example truncateString_demo :
  truncateString "a-rather-long-process-name" 20 = Some "a-rather-long-pro...".
Proof. reflexivity. Qed.

(** X8. [truncateString] with a width below 3 panics on every string longer
    than the width: the slice bound width - 3 is negative. *)
Theorem truncateString_narrow_panics s width :
  width < 3 -> width < Z.of_nat (String.length s) ->
  truncateString s width = None.
Proof.
  intros Hw Hlong. unfold truncateString.
  rewrite (proj2 (Z.leb_gt _ _)) by lia.
  by rewrite (proj2 (Z.ltb_lt _ _)) by lia.
Qed.

Lemma truncateString_narrow_panics_witness :
  (2 < 3 /\ 2 < Z.of_nat (String.length "abc")) /\
  truncateString "abc" 2 = None.
Proof.
  assert (H1 : 2 < 3) by reflexivity.
  assert (H2 : 2 < Z.of_nat (String.length "abc")) by reflexivity.
  split; [split; [exact H1 | exact H2]|].
  exact (truncateString_narrow_panics "abc" 2 H1 H2).
Defined.

(** X9. [ProcessState.String] gives each of the seven states a name of its
    own, none of them "Unknown"; an integer from 7 up is "Unknown", and one
    below 0 makes it panic. *)
Theorem ProcessState_String_names :
  (forall st, exists name,
      ProcessState_String (state_code st) = Some name /\ name <> "Unknown") /\
  (forall a b,
      ProcessState_String (state_code a) = ProcessState_String (state_code b) ->
      a = b) /\
  (forall ps, 7 <= ps -> ProcessState_String ps = Some "Unknown") /\
  (forall ps, ps < 0 -> ProcessState_String ps = None).
Proof.
  split_and!.
  - intros []; eexists; (split; [reflexivity | discriminate]).
  - intros [] []; (reflexivity || discriminate).
  - intros ps H. unfold ProcessState_String. cbn [length state_names].
    by rewrite (proj2 (Z.ltb_ge _ _)) by lia.
  - intros ps H. unfold ProcessState_String. cbn [length state_names].
    rewrite (proj2 (Z.ltb_lt _ _)) by lia.
    by rewrite (proj2 (Z.ltb_lt _ _)) by lia.
Qed.

Lemma ProcessState_String_names_witness :
  ProcessState_String (state_code StateFailed) = Some "Failed" /\
  ProcessState_String 7 = Some "Unknown" /\
  ProcessState_String (-1) = None.
Proof.
  destruct ProcessState_String_names as (_ & _ & H7 & Hneg).
  split; [reflexivity|]. split; [apply H7; discriminate | by apply Hneg].
Defined.

(** X10. [ListProcesses] cannot panic on a record: the name column is there
    and at most 20 bytes wide, the state column is there and is the name of
    one of the seven states; the pid column is a dash exactly for pid 0. *)
Theorem ListProcesses_row_sound now process :
  exists name st,
    row_name (ListProcesses_row now process) = Some name /\
    Z.of_nat (String.length name) <= 20 /\
    row_state (ListProcesses_row now process) = Some st /\
    st <> "Unknown" /\
    (row_pid (ListProcesses_row now process) = None <-> PID process = 0).
Proof.
  destruct (truncateString_fits_aux (Name process) 20) as (name & Hn & Hl);
    [done|].
  assert (exists st, ProcessState_String (state_code (State process)) = Some st
                     /\ st <> "Unknown") as (st & Hst & Hu)
    by (destruct (State process); eexists;
        (split; [reflexivity | discriminate])).
  exists name, st. cbn [ListProcesses_row row_name row_state row_pid].
  split_and!; try done.
  destruct (decide (PID process = 0)); split; (done || congruence).
Qed.

(** ** End times *)

Lemma change_EndTime t p p' :
  change t p p' ->
  (forall e, EndTime p = Some e -> e <= t) ->
  forall e, EndTime p' = Some e -> e <= t.
Proof.
  induction 1; simpl; auto. intros _ e [= <-]. done.
Qed.

Lemma step_timely s s' : step s s' -> timely s -> timely s'.
Proof.
  intros [i s0 s1 [|q q' t Hq Ht Hc]|s0] Hs; auto.
  intros id p e. rewrite record_at_time, clock_at_time.
  destruct (decide (i = id)) as [->|Hne].
  - rewrite record_put_eq. intros [= <-]. eapply change_EndTime; [done|].
    intros e' He'. specialize (Hs _ _ _ Hq He'). lia.
  - rewrite record_put_ne by done. intros Hp He.
    specialize (Hs _ _ _ Hp He). lia.
Qed.

Lemma exec_timely c s : timely s -> timely (final (exec c s)).
Proof.
  intros Hs. destruct (is_create_dec c) as [(name & command & dt & ->)|Hc].
  - cbn [exec]. rewrite final_discard, CreateProcess_eq. cbn [final].
    intros id p e. unfold record. cbn [plm processes clock].
    destruct (decide (nextProcessID (plm s) = id)) as [->|Hne].
    + rewrite lookup_insert_eq. by intros [= <-].
    + rewrite lookup_insert_ne by done. intros Hp He.
      specialize (Hs _ _ _ Hp He). lia.
  - pose proof (exec_steps c s Hc) as H. revert Hs.
    induction H; eauto using step_timely.
Qed.

Lemma reachable_timely s : reachable s -> timely s.
Proof.
  intros (t0 & cs & t & Hrun).
  assert (H0 : timely (boot t0)).
  { intros id p e. unfold record, boot. simpl. by rewrite lookup_empty. }
  revert Hrun H0. generalize (boot t0). revert t.
  induction cs as [|c cs IH]; intros t s0.
  - by intros [= <- <-].
  - intros (s1 & t1 & t2 & He & Hr & _)%run_cons_inv H0.
    eapply IH; [done|]. pose proof (exec_timely c s0 H0) as H1.
    by rewrite He in H1.
Qed.

(** X11. [StartProcess] does not clear the end time. When a record of a
    reachable program that has an end time (it was stopped once) is started
    with success, it is Running with the old end time, which is not after
    its new start time: the uptime [ListProcesses] works out for it, end
    time minus start time, is zero or negative however long it runs. *)
Theorem StartProcess_keeps_EndTime s id p e env pid :
  reachable s -> record s id = Some p -> EndTime p = Some e ->
  checkDependencies_loop (processes (plm s)) (Dependencies p) = true ->
  Command p <> [] -> launch env = Some pid ->
  exists p',
    record (final (StartProcess id env s)) id = Some p' /\
    State p' = StateRunning /\ EndTime p' = Some e /\
    e <= StartTime p' /\
    forall now, ListProcesses_uptime now p' <= 0.
Proof.
  intros Hs Hp He Hd Hc Hl.
  pose proof (reachable_timely s Hs id p e Hp He) as Hle.
  erewrite StartProcess_launched by done. cbn [final].
  rewrite record_at_time, record_put_eq. eexists. split; [done|].
  cbn [launched State EndTime StartTime set_StartTime set_State set_PID
       set_cmd]. split; [done|]. split; [done|]. split; [lia|].
  intros now. unfold ListProcesses_uptime.
  cbn [launched EndTime StartTime set_StartTime set_State set_PID set_cmd].
  rewrite He. lia.
Qed.

Lemma StartProcess_keeps_EndTime_witness :
  (reachable demo_stopped /\
   record demo_stopped 1 = Some demo_stopped_record /\
   EndTime demo_stopped_record = Some 112) /\
  exists p',
    record (final (StartProcess 1 (mkStartEnv (Some 7%positive) 30)
                     demo_stopped)) 1 = Some p' /\
    State p' = StateRunning /\ EndTime p' = Some 112 /\
    forall now, ListProcesses_uptime now p' <= 0.
Proof.
  split; [split; [exact demo_stopped_reachable |
                  split; [exact demo_stopped_lookup | reflexivity]]|].
  assert (Hc : Command demo_stopped_record <> []) by discriminate.
  destruct (StartProcess_keeps_EndTime demo_stopped 1 demo_stopped_record 112
              (mkStartEnv (Some 7%positive) 30) 7%positive
              demo_stopped_reachable demo_stopped_lookup eq_refl eq_refl Hc
              eq_refl) as (p' & H1 & H2 & H3 & _ & H5).
  exists p'. split; [exact H1 | split; [exact H2 | split; [exact H3 | exact H5]]].
Defined.

(** ** Settings *)

(** X15. [SetProcessEnvironment] lays the given variables over those of the
    record: a name that is given gets the given value, a name that is not
    keeps the value it had, and nothing else of the record or of the program
    changes; setting the same variables a second time changes nothing. *)
Theorem SetProcessEnvironment_merges s id p env :
  record s id = Some p ->
  let p' := set_Environment (env ∪ Environment p) p in
  SetProcessEnvironment id env s = Ret None (put id p' s) [] /\
  (forall k v, env !! k = Some v -> Environment p' !! k = Some v) /\
  (forall k, env !! k = None -> Environment p' !! k = Environment p !! k) /\
  SetProcessEnvironment id env (put id p' s) = Ret None (put id p' s) [].
Proof.
  intros Hp p'. split_and!.
  - unfold SetProcessEnvironment, bind. mstep. rewrite Hp. by mstep.
  - intros k v Hk. cbn [p' Environment set_Environment].
    by apply lookup_union_Some_l.
  - intros k Hk. cbn [p' Environment set_Environment].
    by apply lookup_union_r.
  - assert (set_Environment (env ∪ Environment p') p' = p') as Hsame.
    { unfold p', set_Environment. simpl. f_equal.
      apply map_eq. intros k. rewrite !lookup_union.
      by destruct (env !! k), (Environment p !! k). }
    unfold SetProcessEnvironment, bind. mstep. rewrite record_put_eq. mstep.
    by rewrite Hsame.
Qed.

Lemma SetProcessEnvironment_merges_witness :
  record demo_started 1 = Some demo_record /\
  exists s',
    SetProcessEnvironment 1 {[ "MODE" := "test" ]} demo_started
      = Ret None s' [] /\
    SetProcessEnvironment 1 {[ "MODE" := "test" ]} s' = Ret None s' [].
Proof.
  split; [exact demo_started_record|].
  destruct (SetProcessEnvironment_merges demo_started 1 demo_record
              {[ "MODE" := "test" ]} demo_started_record)
    as (H1 & _ & _ & H4).
  eexists. split; [exact H1 | exact H4].
Defined.

Lemma change_identity t p p' :
  change t p p' ->
  ID p' = ID p /\ Name p' = Name p /\ Command p' = Command p.
Proof.
  induction 1; simpl; try done.
  destruct IHchange1 as (? & ? & ?), IHchange2 as (? & ? & ?).
  repeat split; congruence.
Qed.

Lemma steps_identity s s' id p :
  rtc step s s' -> record s id = Some p ->
  exists p', record s' id = Some p' /\
             ID p' = ID p /\ Name p' = Name p /\ Command p' = Command p.
Proof.
  intros Hs. revert p. induction Hs as [s|s s1 s2 H1 _ IH]; intros p Hp.
  - eauto.
  - destruct (step_record _ _ _ _ H1 Hp) as (q & Hq & [->|Hc]); [eauto|].
    destruct (change_identity _ _ _ Hc) as (E1 & E2 & E3).
    destruct (IH q Hq) as (p' & Hp' & F1 & F2 & F3).
    exists p'. repeat split; congruence.
Qed.

(** X16. The name and the command of a record are fixed when it is created.
    Over any run that returns (and does not wrap the id counter), the record
    under an id keeps its id, its name and its command, whatever is done to
    it. *)
Theorem name_and_command_fixed cs : forall s s' t id p,
  record s id = Some p -> ids_fresh s ->
  nextProcessID (plm s) + Z.of_nat (length cs) <= max_int ->
  run cs s = Ret tt s' t ->
  exists p', record s' id = Some p' /\
             ID p' = ID p /\ Name p' = Name p /\ Command p' = Command p.
Proof.
  induction cs as [|c cs IH]; intros s s' t id p Hp Hf Hn.
  - intros [= <- <-]. eauto.
  - intros (s1 & t1 & t2 & He & Hr & _)%run_cons_inv. cbn [length] in Hn.
    destruct (exec_ids_fresh c s Hf ltac:(lia)) as [Hf1 Hn1].
    assert (exists q, record (final (exec c s)) id = Some q /\
              ID q = ID p /\ Name q = Name p /\ Command q = Command p)
      as (q & Hq & E1 & E2 & E3).
    { destruct (is_create_dec c) as [(name & command & dt & ->)|Hc].
      - cbn [exec]. rewrite final_discard, CreateProcess_eq. cbn [final].
        exists p. split; [|done]. unfold record. cbn [plm processes].
        rewrite lookup_insert_ne; [done|]. intros E.
        destruct Hf as [_ Hf]. assert (is_Some (record s id)) as Hi by eauto.
        apply Hf in Hi. lia.
      - eapply steps_identity; [by apply exec_steps | done]. }
    rewrite He in Hf1, Hn1, Hq. cbn [final] in Hf1, Hn1, Hq.
    destruct (IH s1 s' t2 id q Hq Hf1 ltac:(lia) Hr) as (p' & Hp' & F1 & F2 & F3).
    exists p'. repeat split; congruence.
Qed.

Lemma name_and_command_fixed_witness :
  (record demo_started 1 = Some demo_record /\ ids_fresh demo_started) /\
  exists p',
    record (final (run demo_restarts demo_started)) 1 = Some p' /\
    Name p' = "sleeper" /\ Command p' = sleeper.
Proof.
  split; [split; [exact demo_started_record | exact demo_started_ids_fresh]|].
  assert (Hn : nextProcessID (plm demo_started)
               + Z.of_nat (length demo_restarts) <= max_int) by discriminate.
  assert (Hrun : run demo_restarts demo_started =
                 Ret tt (final (run demo_restarts demo_started))
                        (trace (run demo_restarts demo_started)))
    by (vm_compute; reflexivity).
  destruct (name_and_command_fixed demo_restarts demo_started _ _ 1 demo_record
              demo_started_record demo_started_ids_fresh Hn Hrun)
    as (p' & H1 & _ & H2 & H3).
  exists p'. split; [exact H1 | split; [exact H2 | exact H3]].
Defined.

(** ** Start order *)

(** X17. Start order. Let record b depend on record a alone, a on nothing,
    and a not be Running. Then [StartProcess] on b is turned down with the
    dependency error and changes nothing; [StartProcess] on a, the launch
    succeeding, goes through; and after it [StartProcess] on b goes through
    too and leaves b Running. *)
Theorem start_order s a b pa pb enva envb pida pidb :
  a <> b ->
  record s a = Some pa -> record s b = Some pb ->
  Dependencies pa = [] -> Dependencies pb = [a] ->
  State pa <> StateRunning ->
  Command pa <> [] -> Command pb <> [] ->
  launch enva = Some pida -> launch envb = Some pidb ->
  StartProcess b envb s = Ret (Some (ErrDependencies b)) s [] /\
  returned (StartProcess a enva s) = Some None /\
  returned (StartProcess b envb (final (StartProcess a enva s))) = Some None /\
  State <$> record (final (StartProcess b envb (final (StartProcess a enva s)))) b
    = Some StateRunning.
Proof.
  intros Hab Ha Hb Hda Hdb Hnr Hca Hcb Hla Hlb.
  assert (Hblocked : checkDependencies_loop (processes (plm s)) (Dependencies pb)
                     = false).
  { rewrite Hdb. cbn [checkDependencies_loop]. unfold record in Ha.
    rewrite Ha. by destruct (decide (State pa = StateRunning)). }
  assert (Hfree : checkDependencies_loop (processes (plm s)) (Dependencies pa)
                  = true) by (by rewrite Hda).
  split; [by eapply StartProcess_blocked|].
  erewrite (StartProcess_launched a enva s pa) by done.
  split; [done|]. cbn [final].
  set (s1 := at_time _ (put a _ s)).
  assert (Hb1 : record s1 b = Some pb)
    by (unfold s1; by rewrite record_at_time, record_put_ne).
  assert (Hd1 : checkDependencies_loop (processes (plm s1)) (Dependencies pb)
                = true).
  { rewrite Hdb. cbn [checkDependencies_loop].
    change (processes (plm s1) !! a) with (record s1 a). unfold s1.
    rewrite record_at_time, record_put_eq. done. }
  erewrite (StartProcess_launched b envb s1 pb) by done.
  split; [done|]. cbn [final]. by rewrite record_at_time, record_put_eq.
Qed.

Lemma start_order_witness :
  (record demo_dependent 1 = Some demo_db /\
   record demo_dependent 2 = Some demo_web /\
   Dependencies demo_web = [1] /\ State demo_db <> StateRunning) /\
  StartProcess 2 (mkStartEnv (Some 22%positive) 1) demo_dependent =
    Ret (Some (ErrDependencies 2)) demo_dependent [] /\
  State <$> record (final (StartProcess 2 (mkStartEnv (Some 22%positive) 1)
              (final (StartProcess 1 (mkStartEnv (Some 21%positive) 1)
                        demo_dependent)))) 2
    = Some StateRunning.
Proof.
  assert (Hab : 1 <> 2) by discriminate.
  assert (Hnr : State demo_db <> StateRunning) by discriminate.
  assert (Hca : Command demo_db <> []) by discriminate.
  assert (Hcb : Command demo_web <> []) by discriminate.
  split; [by repeat split; try apply demo_dependent_db;
             try apply demo_dependent_web|].
  destruct (start_order demo_dependent 1 2 demo_db demo_web
              (mkStartEnv (Some 21%positive) 1) (mkStartEnv (Some 22%positive) 1)
              21%positive 22%positive Hab demo_dependent_db demo_dependent_web
              eq_refl eq_refl Hnr Hca Hcb eq_refl eq_refl)
    as (H1 & _ & _ & H4).
  split; [exact H1 | exact H4].
Defined.

(** ** The interactive loop *)




Lemma moves_commands_nonempty i s s' :
  moves i s s' -> commands_nonempty s -> commands_nonempty s'.
Proof.
  intros [|p p' t Hp Ht Hc] Hs; [done|]. intros id q.
  rewrite record_at_time. destruct (decide (i = id)) as [->|Hne].
  - rewrite record_put_eq. intros [= <-].
    destruct (change_identity _ _ _ Hc) as (_ & _ & ->). by eapply Hs.
  - rewrite record_put_ne by done. apply Hs.
Qed.

Lemma steps_commands_nonempty s s' :
  rtc step s s' -> commands_nonempty s -> commands_nonempty s'.
Proof.
  induction 1 as [|s0 s1 s2 H _ IH]; [done|]. intros Hs. apply IH.
  destruct H as [i s0 s1 Hm|s0]; [by eapply moves_commands_nonempty|done].
Qed.

(** With a command in every record, [StartProcess] returns. *)
Lemma StartProcess_returns id env s :
  commands_nonempty s -> exists r s' t, StartProcess id env s = Ret r s' t.
Proof.
  intros Hs. destruct (record s id) as [p|] eqn:Hp;
    [| rewrite StartProcess_unknown by done; eauto].
  destruct (checkDependencies_loop (processes (plm s)) (Dependencies p)) eqn:Hd;
    [| erewrite StartProcess_blocked by done; eauto].
  pose proof (Hs id p Hp) as Hc.
  destruct (launch env) as [pid|] eqn:Hl.
  - erewrite StartProcess_launched by done. eauto.
  - erewrite StartProcess_launch_failed by done. eauto.
Qed.

Lemma RestartProcess_returns id senv env s :
  commands_nonempty s ->
  exists r s' t, RestartProcess id senv env s = Ret r s' t.
Proof.
  intros Hs. destruct (record s id) as [p|] eqn:Hp;
    [| rewrite RestartProcess_unknown by done; eauto].
  destruct (decide (RestartCount p < MaxRestarts p)) as [Hr|Hr];
    [| erewrite RestartProcess_refused by (done || lia); eauto].
  erewrite RestartProcess_granted by done.
  edestruct (StartProcess_returns id env) as (r & s' & t & ->);
    [| simpl; eauto].
  eapply moves_commands_nonempty; [|done].
  eapply moves_record; [done | lia | by apply ch_restarting].
Qed.

(** [ShutdownAll] either returns with the channel closed or panics at once on
    the closed channel. *)
Lemma ShutdownAll_outcome env s :
  (exists s' t, ShutdownAll env s = Ret tt s' t /\
                shutdownClosed (plm s') = true) \/
  ShutdownAll env s = Panic CloseOfClosedChannel s [].
Proof.
  pose proof (ShutdownAll_closes env s) as Hclosed. revert Hclosed.
  unfold ShutdownAll, bind, close_shutdownChannel, get_plm.
  destruct (shutdownClosed (plm s)); [by right|]. cbn [plm processes].
  match goal with |- context [stop_each ?l env ?s1] =>
    destruct (stop_each_returns l env s1) as (s' & t & ->) end.
  cbn [final]. intros H. left. by eexists _, _.
Qed.

(** One line of the loop, when every record has a command: a panic can only
    be that of the closed channel, and afterwards every record still has a
    command. *)
Lemma interactive_command_safe Atoi parts a s :
  commands_nonempty s ->
  (panic_of (interactive_command Atoi parts a s) = None \/
   panic_of (interactive_command Atoi parts a s) = Some CloseOfClosedChannel) /\
  commands_nonempty (final (interactive_command Atoi parts a s)).
Proof.
  intros Hs. destruct parts as [|command args]; [by split; [left|]|].
  unfold interactive_command.
  assert (Hshut : forall next : LoopNext,
    (panic_of ((run* ShutdownAll (ans_shutdown a) in ret next) s) = None \/
     panic_of ((run* ShutdownAll (ans_shutdown a) in ret next) s)
       = Some CloseOfClosedChannel) /\
    commands_nonempty (final ((run* ShutdownAll (ans_shutdown a) in ret next) s))).
  { intros next. unfold bind.
    pose proof (ShutdownAll_steps (ans_shutdown a) s) as Hst.
    destruct (ShutdownAll_outcome (ans_shutdown a) s)
      as [(s' & t & E & _)|E]; rewrite E in Hst |- *; cbn [final] in Hst.
    - split; [by left|]. by eapply steps_commands_nonempty.
    - split; [by right|done]. }
  repeat case_decide; try apply Hshut; try (by split; [left|]).
  - destruct args as [|name [|c0 rest]]; try (by split; [left|]).
    unfold bind. rewrite CreateProcess_eq. cbn [ret panic_of final].
    split; [by left|]. intros id p. unfold record. cbn [plm processes].
    destruct (decide (nextProcessID (plm s) = id)) as [->|Hne].
    + rewrite lookup_insert_eq. by intros [= <-].
    + rewrite lookup_insert_ne by done. apply Hs.
  - destruct args as [|arg rest]; [by split; [left|]|].
    destruct (Atoi arg) as [id|]; [|by split; [left|]]. unfold bind.
    pose proof (StartProcess_moves id (ans_start a) s) as Hm.
    destruct (StartProcess_returns id (ans_start a) s Hs) as (r & s' & t & E).
    rewrite E in Hm |- *. cbn [final ret panic_of] in Hm |- *.
    split; [by left|]. by eapply moves_commands_nonempty.
  - destruct args as [|arg rest]; [by split; [left|]|].
    destruct (Atoi arg) as [id|]; [|by split; [left|]]. unfold bind.
    pose proof (StopProcess_moves id (ans_stop a) s) as Hm.
    destruct (StopProcess_returns id (ans_stop a) s) as (r & s' & t & E).
    rewrite E in Hm |- *. cbn [final ret panic_of] in Hm |- *.
    split; [by left|]. by eapply moves_commands_nonempty.
  - destruct args as [|arg rest]; [by split; [left|]|].
    destruct (Atoi arg) as [id|]; [|by split; [left|]]. unfold bind.
    pose proof (RestartProcess_moves id (ans_stop a) (ans_start a) s) as Hm.
    destruct (RestartProcess_returns id (ans_stop a) (ans_start a) s Hs)
      as (r & s' & t & E).
    rewrite E in Hm |- *. cbn [final ret panic_of] in Hm |- *.
    split; [by left|]. by eapply moves_commands_nonempty.
  - destruct args as [|arg rest]; [by split; [left|]|].
    destruct (Atoi arg) as [id|]; [|by split; [left|]].
    unfold bind, GetProcessStatus, bind. mstep.
    destruct (record s id); by split; [left|].
Qed.

(** X19. The commands of the interactive loop can kill it in one way only.
    Run from a fresh manager on any lines whatever, the loop of
    [InteractiveMode] either goes on or ends in the panic of closing the
    closed channel; its commands never index an empty command, because its
    "create" takes no line without one, and never follow a nil record. *)
Theorem InteractiveMode_only_panic Atoi inputs t0 :
  panic_of (InteractiveMode Atoi inputs (boot t0)) = None \/
  panic_of (InteractiveMode Atoi inputs (boot t0)) = Some CloseOfClosedChannel.
Proof.
  assert (H0 : commands_nonempty (boot t0)).
  { intros id p. unfold record, boot. simpl. by rewrite lookup_empty. }
  revert H0. generalize (boot t0).
  induction inputs as [|[parts a] rest IH]; intros s Hs; [by left|].
  cbn [InteractiveMode]. unfold bind.
  destruct (interactive_command_safe Atoi parts a s Hs) as [Hp Hc].
  destruct (interactive_command Atoi parts a s) as [next s1 t1|w s1 t1];
    cbn [panic_of final] in Hp, Hc |- *; [|done].
  destruct next; [|by left].
  destruct (IH s1 Hc) as [H|H];
    destruct (InteractiveMode Atoi rest s1); cbn [panic_of] in H |- *;
    (by left) || (by right).
Qed.

(** X20. Two shutdowns end the loop in a panic. After the line "shutdown",
    the next "shutdown", "quit" or "exit" makes [InteractiveMode] panic on
    the closed channel, whatever the program was like. *)
Theorem InteractiveMode_second_shutdown_panics Atoi a a' s command :
  In command ["shutdown"; "quit"; "exit"] ->
  panic_of (InteractiveMode Atoi [(["shutdown"], a); ([command], a')] s)
  = Some CloseOfClosedChannel.
Proof.
  intros Hc. cbn [InteractiveMode]. unfold bind.
  change (interactive_command Atoi ["shutdown"] a s)
    with ((run* ShutdownAll (ans_shutdown a) in ret LoopAgain) s).
  unfold bind at 1.
  destruct (ShutdownAll_outcome (ans_shutdown a) s)
    as [(s1 & t1 & E & Hclosed)|E]; rewrite E; [|done].
  cbn [ret app].
  assert (ShutdownAll (ans_shutdown a') s1 = Panic CloseOfClosedChannel s1 [])
    as Hpanic.
  { unfold ShutdownAll, bind, close_shutdownChannel. by rewrite Hclosed. }
  destruct Hc as [<-|[<-|[<-|[]]]].
  - change (interactive_command Atoi ["shutdown"] a' s1)
      with ((run* ShutdownAll (ans_shutdown a') in ret LoopAgain) s1).
    unfold bind. by rewrite Hpanic.
  - change (interactive_command Atoi ["quit"] a' s1)
      with ((run* ShutdownAll (ans_shutdown a') in ret LoopReturn) s1).
    unfold bind. by rewrite Hpanic.
  - change (interactive_command Atoi ["exit"] a' s1)
      with ((run* ShutdownAll (ans_shutdown a') in ret LoopReturn) s1).
    unfold bind. by rewrite Hpanic.
Qed.

Lemma InteractiveMode_second_shutdown_panics_witness :
  In "quit" ["shutdown"; "quit"; "exit"] /\
  panic_of (InteractiveMode (fun _ => None)
              [(["shutdown"],
                mkAnswers 0 (mkStartEnv None 0) (mkStopEnv true true 0)
                  (fun _ => mkStopEnv true true 0));
               (["quit"],
                mkAnswers 0 (mkStartEnv None 0) (mkStopEnv true true 0)
                  (fun _ => mkStopEnv true true 0))] demo_started)
  = Some CloseOfClosedChannel.
Proof.
  assert (H : In "quit" ["shutdown"; "quit"; "exit"]) by (right; by left).
  split; [exact H|].
  exact (InteractiveMode_second_shutdown_panics _ _ _ demo_started "quit" H).
Defined.

(** X21. "quit" ends the loop with everything stopped. On a reachable
    program whose channel is open, the line "quit" (or "exit") makes
    [InteractiveMode] return, whatever lines follow, with the channel closed
    and no record Running. *)
Theorem InteractiveMode_quit Atoi a rest s command :
  reachable s -> shutdownClosed (plm s) = false ->
  In command ["quit"; "exit"] ->
  exists s' t,
    InteractiveMode Atoi (([command], a) :: rest) s = Ret LoopReturn s' t /\
    shutdownClosed (plm s') = true /\
    (forall id p, record s' id = Some p -> State p <> StateRunning).
Proof.
  intros Hs Hopen Hc.
  destruct (ShutdownAll_open (ans_shutdown a) s Hs Hopen)
    as (s' & t & E & Hclosed & Hstops).
  exists s', (t ++ [] ++ []). split; [|done].
  cbn [InteractiveMode]. unfold bind at 1.
  assert (interactive_command Atoi [command] a s = Ret LoopReturn s' (t ++ []))
    as ->.
  { destruct Hc as [<-|[<-|[]]].
    - change (interactive_command Atoi ["quit"] a s)
        with ((run* ShutdownAll (ans_shutdown a) in ret LoopReturn) s).
      unfold bind. by rewrite E.
    - change (interactive_command Atoi ["exit"] a s)
        with ((run* ShutdownAll (ans_shutdown a) in ret LoopReturn) s).
      unfold bind. by rewrite E. }
  cbn [ret]. by rewrite !app_nil_r.
Qed.

Lemma InteractiveMode_quit_witness :
  (reachable demo_started /\ shutdownClosed (plm demo_started) = false /\
   In "quit" ["quit"; "exit"]) /\
  exists s' t,
    InteractiveMode (fun _ => None)
      [(["quit"],
        mkAnswers 0 (mkStartEnv None 0) (mkStopEnv true true 0)
          (fun _ => mkStopEnv true true 0))] demo_started
    = Ret LoopReturn s' t /\
    (forall id p, record s' id = Some p -> State p <> StateRunning).
Proof.
  assert (H : In "quit" ["quit"; "exit"]) by (by left).
  split; [split; [exact demo_started_reachable | split; [reflexivity | exact H]]|].
  destruct (InteractiveMode_quit (fun _ => None)
              (mkAnswers 0 (mkStartEnv None 0) (mkStopEnv true true 0)
                 (fun _ => mkStopEnv true true 0))
              [] demo_started "quit" demo_started_reachable eq_refl H)
    as (s' & t & H1 & _ & H3).
  exists s', t. split; [exact H1 | exact H3].
Defined.
